(** * Filecoin Pin storage provider: a shallow embedding

    The development follows [storage/filecoin_pin_provider.py].  Python
    values are modelled as the interpreter has them: a [str] is a sequence of
    Unicode code points, [bytes] is a sequence of octets, an [int] is an
    unbounded integer.  The operating system, the [filecoin-pin] executable
    and the HTTP gateways are oracles of the environment; the provider's
    methods are computations in a state-and-exception monad over a world that
    records the temporary directories, the files and the observable events. *)

From Stdlib Require Import List NArith ZArith String Ascii DecimalString.
From Stdlib Require Import Lia Bool Permutation.
Import ListNotations.

Set Implicit Arguments.
Local Open Scope list_scope.

(* ================================================================== *)
(** ** Python strings *)

Module PyStr.

Open Scope N_scope.

(** A Python [str]: the list of its code points. *)
Definition str := list N.

(** A string literal of the source (all of them are ASCII but one). *)
Definition lit (s : string) : str :=
  List.map N_of_ascii (list_ascii_of_string s).
Arguments lit s%_string.

Fixpoint eqb (a b : str) : bool :=
  match a, b with
  | [], [] => true
  | x :: a', y :: b' => (x =? y) && eqb a' b'
  | _, _ => false
  end.

(** [s.startswith(p)] *)
Fixpoint startswith (s p : str) {struct p} : bool :=
  match p with
  | [] => true
  | x :: p' =>
      match s with
      | [] => false
      | y :: s' => (x =? y) && startswith s' p'
      end
  end.

(** [sub in s] *)
Fixpoint contains (s sub : str) : bool :=
  startswith s sub ||
  match s with
  | [] => false
  | _ :: s' => contains s' sub
  end.

(** The scan shared by [str.replace] and [str.split]: occurrences of the
    pattern are found left to right and do not overlap.  [skip] counts the
    code points of a matched occurrence that are still to be passed over. *)
Fixpoint replace_from (skip : nat) (s old new : str) : str :=
  match s with
  | [] => []
  | c :: s' =>
      match skip with
      | S k => replace_from k s' old new
      | O =>
          if startswith s old
          then new ++ replace_from (List.length old - 1) s' old new
          else c :: replace_from 0 s' old new
      end
  end.

(** [s.replace(old, new)].  For the empty pattern Python inserts [new]
    before every code point and at the end. *)
Definition replace (s old new : str) : str :=
  match old with
  | [] => new ++ flat_map (fun c => c :: new) s
  | _ :: _ => replace_from 0 s old new
  end.

Definition cons_head (c : N) (parts : list str) : list str :=
  match parts with
  | [] => [[c]]
  | p :: ps => (c :: p) :: ps
  end.

Fixpoint split_from (skip : nat) (s sep : str) : list str :=
  match s with
  | [] => [[]]
  | c :: s' =>
      match skip with
      | S k => split_from k s' sep
      | O =>
          if startswith s sep
          then [] :: split_from (List.length sep - 1) s' sep
          else cons_head c (split_from 0 s' sep)
      end
  end.

(** [s.split(sep)] for a non-empty separator (the source only passes
    literals; Python rejects the empty separator with ValueError). *)
Definition split (s sep : str) : list str := split_from 0 s sep.

(** [str.isspace] on one code point: the interpreter's table of white space. *)
Definition isspace (c : N) : bool :=
  ((9 <=? c) && (c <=? 13)) || ((28 <=? c) && (c <=? 32)) ||
  (c =? 133) || (c =? 160) || (c =? 5760) ||
  ((8192 <=? c) && (c <=? 8202)) ||
  (c =? 8232) || (c =? 8233) || (c =? 8239) || (c =? 8287) || (c =? 12288).

Fixpoint lstrip (s : str) : str :=
  match s with
  | [] => []
  | c :: s' => if isspace c then lstrip s' else s
  end.

Definition rstrip (s : str) : str := rev (lstrip (rev s)).

(** [s.strip()] *)
Definition strip (s : str) : str := rstrip (lstrip s).

(** The line boundaries of [str.splitlines] other than the pair CR LF. *)
Definition is_linebreak (c : N) : bool :=
  ((10 <=? c) && (c <=? 13)) || ((28 <=? c) && (c <=? 30)) ||
  (c =? 133) || (c =? 8232) || (c =? 8233).

(** [cur] is the line being read, last code point first. *)
Fixpoint splitlines_go (cur : str) (s : str) : list str :=
  match s with
  | [] => match cur with [] => [] | _ :: _ => [rev cur] end
  | c :: s' =>
      if c =? 13 then
        match s' with
        | d :: s'' =>
            if d =? 10 then rev cur :: splitlines_go [] s''
            else rev cur :: splitlines_go [] s'
        | [] => rev cur :: splitlines_go [] s'
        end
      else if is_linebreak c then rev cur :: splitlines_go [] s'
      else splitlines_go (c :: cur) s'
  end.

(** [s.splitlines()] *)
Definition splitlines (s : str) : list str := splitlines_go [] s.

Fixpoint take_while (f : N -> bool) (s : str) : str :=
  match s with
  | [] => []
  | c :: s' => if f c then c :: take_while f s' else []
  end.

Fixpoint drop_while (f : N -> bool) (s : str) : str :=
  match s with
  | [] => []
  | c :: s' => if f c then drop_while f s' else s
  end.

(** [str(n)] for an [int]. *)
Definition of_Z (z : Z) : str := lit (NilZero.string_of_int (Z.to_int z)).

End PyStr.

Import PyStr.

(** [bytes]: a sequence of octets. *)
Definition bytes := list Byte.byte.

(** [len(b)] *)
Definition len (A : Type) (l : list A) : Z := Z.of_nat (List.length l).

(** Truth value of an [Optional[str]]: [None] and the empty string are false. *)
Definition truthy (o : option str) : bool :=
  match o with
  | Some (_ :: _) => true
  | _ => false
  end.

(** [o or default] on an [Optional[str]]. *)
Definition or_else (o : option str) (default : str) : str :=
  match o with
  | Some (c :: s) => c :: s
  | _ => default
  end.

(* ================================================================== *)
(** ** Exceptions *)

(** An exception object, an instance of [Exception]: what the handlers of
    the source look at is whether it is a [subprocess.TimeoutExpired], and
    its text [str(e)]. *)
Record exn := Exn { is_TimeoutExpired : bool; exn_str : str }.

Definition Exception (msg : str) : exn := Exn false msg.
Definition TimeoutExpired (msg : str) : exn := Exn true msg.

Inductive outcome (A : Type) : Type :=
| Ret (a : A)
| Raise (e : exn).
Arguments Raise {A} e.

Definition obind (A B : Type) (m : outcome A) (f : A -> outcome B) : outcome B :=
  match m with
  | Ret a => f a
  | Raise e => Raise e
  end.

(** [l[1]] *)
Definition item1 (A : Type) (l : list A) : outcome A :=
  match l with
  | _ :: x :: _ => Ret x
  | _ => Raise (Exception (lit "list index out of range"))
  end.

(* ================================================================== *)
(** ** The world: file system and observable events *)

Inductive event : Type :=
| Print (text : str)
| Mkdtemp (prefix : str)
| WriteBytes (path : str) (data : bytes)
| Run (command : list str) (timeout : Z)
| Rmtree (dir : str)
| HttpGet (url : str) (timeout : Z).

(** [dirs]: the directories that exist; [files]: the files and their
    contents; [trace]: the calls made so far, oldest first. *)
Record world := World {
  dirs : list str;
  files : list (str * bytes);
  trace : list event
}.

Definition emit (e : event) (w : world) : world :=
  World (dirs w) (files w) (trace w ++ [e]).

(** A computation: it may read and change the world, and returns or raises. *)
Definition M (A : Type) : Type := world -> outcome A * world.

Definition ret (A : Type) (a : A) : M A := fun w => (Ret a, w).

Definition raise (A : Type) (e : exn) : M A := fun w => (Raise e, w).
Arguments raise {A} e.

Definition bind (A B : Type) (m : M A) (f : A -> M B) : M B :=
  fun w =>
    match m w with
    | (Ret a, w') => f a w'
    | (Raise e, w') => (Raise e, w')
    end.

Definition lift (A : Type) (o : outcome A) : M A := fun w => (o, w).

(** [try: m  except Exception as e: h e] *)
Definition try_except (A : Type) (m : M A) (h : exn -> M A) : M A :=
  fun w =>
    match m w with
    | (Ret a, w') => (Ret a, w')
    | (Raise e, w') => h e w'
    end.

(** [try: m  finally: fin]: [fin] runs on return and on raise; what [m]
    returned or raised stands unless [fin] raises itself. *)
Definition try_finally (A : Type) (m : M A) (fin : M unit) : M A :=
  fun w =>
    match m w with
    | (o, w') =>
        match fin w' with
        | (Ret _, w'') => (o, w'')
        | (Raise e, w'') => (Raise e, w'')
        end
    end.

Declare Scope py_scope.
Delimit Scope py_scope with py.
Notation "x <- m ;; k" := (bind m (fun x => k))
  (at level 61, m at next level, right associativity) : py_scope.
Notation "m ;;; k" := (bind m (fun _ => k))
  (at level 61, right associativity) : py_scope.
Notation "x <~ m ;; k" := (obind m (fun x => k))
  (at level 61, m at next level, right associativity) : py_scope.
Local Open Scope py_scope.

(** [print(text)] *)
Definition print (text : str) : M unit :=
  fun w => (Ret tt, emit (Print text) w).

(* ================================================================== *)
(** ** Python objects and [json.dumps] *)

(** The objects the provider handles as [Any]: what a JSON document is made
    of, and any other object, known by the name of its class.  A [float] is
    carried by the text the encoder writes for it ([float.__repr__], [NaN],
    [Infinity]).  A [dict] keeps its items in insertion order. *)
#[local] Set Warnings "-register-all".
Inductive pyobj : Type :=
| PyNone
| PyBool (b : bool)
| PyInt (z : Z)
| PyFloat (text : str)
| PyStr (s : str)
| PyList (l : list pyobj)
| PyDict (items : list (pyobj * pyobj))
| PyOther (class_name : str).

Module Json.

Open Scope N_scope.

Definition hex_digit (n : N) : N :=
  if n <? 10 then 48 + n else 87 + n.

(** ['{0:04x}'.format(n)] for [n < 0x10000] *)
Definition hex4 (n : N) : str :=
  [hex_digit (n / 4096 mod 16); hex_digit (n / 256 mod 16);
   hex_digit (n / 16 mod 16); hex_digit (n mod 16)].

Definition u_escape (n : N) : str := lit "\u" ++ hex4 n.

(** The replacement of one code point by [py_encode_basestring_ascii]. *)
Definition escape_char (c : N) : str :=
  if c =? 92 then lit "\\"
  else if c =? 34 then [92; 34]
  else if c =? 8 then lit "\b"
  else if c =? 12 then lit "\f"
  else if c =? 10 then lit "\n"
  else if c =? 13 then lit "\r"
  else if c =? 9 then lit "\t"
  else if (32 <=? c) && (c <=? 126) then [c]
  else if c <? 65536 then u_escape c
  else
    let n := c - 65536 in
    u_escape (N.lor 55296 (N.land (N.shiftr n 10) 1023)) ++
    u_escape (N.lor 56320 (N.land n 1023)).

(** [json.encoder.py_encode_basestring_ascii] *)
Definition encode_basestring_ascii (s : str) : str :=
  [34] ++ flat_map escape_char s ++ [34].

Definition class_name_of (o : pyobj) : str :=
  match o with
  | PyNone => lit "NoneType"
  | PyBool _ => lit "bool"
  | PyInt _ => lit "int"
  | PyFloat _ => lit "float"
  | PyStr _ => lit "str"
  | PyList _ => lit "list"
  | PyDict _ => lit "dict"
  | PyOther n => n
  end.

(** The text a dictionary key is written as. *)
Definition key_text (key : pyobj) : outcome str :=
  match key with
  | PyStr s => Ret s
  | PyFloat t => Ret t
  | PyBool true => Ret (lit "true")
  | PyBool false => Ret (lit "false")
  | PyNone => Ret (lit "null")
  | PyInt z => Ret (of_Z z)
  | _ =>
      Raise (Exception (lit "keys must be str, int, float, bool or None, not "
                        ++ class_name_of key))
  end.

(** ['\n' + indent * level], with [indent] spaces per level *)
Definition newline_indent (indent level : nat) : str :=
  10 :: repeat 32 (indent * level)%nat.

Section Encoder.

Variable indent : nat.

(** [_iterencode], [_iterencode_list] and [_iterencode_dict] of
    [json.encoder], with the chunks joined; the item separator is [","] and
    the key separator [": "], as [indent] is given. *)
Fixpoint iterencode (level : nat) (o : pyobj) {struct o} : outcome str :=
  match o with
  | PyStr s => Ret (encode_basestring_ascii s)
  | PyNone => Ret (lit "null")
  | PyBool true => Ret (lit "true")
  | PyBool false => Ret (lit "false")
  | PyInt z => Ret (of_Z z)
  | PyFloat t => Ret t
  | PyList [] => Ret (lit "[]")
  | PyList lst =>
      let separator := lit "," ++ newline_indent indent (S level) in
      body <~
        (fix items (first : bool) (l : list pyobj) {struct l} : outcome str :=
           match l with
           | [] => Ret []
           | value :: l' =>
               let buf :=
                 if first then lit "[" ++ newline_indent indent (S level)
                 else separator in
               chunk <~ iterencode (S level) value ;;
               more <~ items false l' ;;
               Ret (buf ++ chunk ++ more)
           end) true lst ;;
      Ret (body ++ newline_indent indent level ++ lit "]")
  | PyDict [] => Ret (lit "{}")
  | PyDict dct =>
      let item_separator := lit "," ++ newline_indent indent (S level) in
      body <~
        (fix items (first : bool) (l : list (pyobj * pyobj)) {struct l}
           : outcome str :=
           match l with
           | [] => Ret []
           | (key, value) :: l' =>
               key <~ key_text key ;;
               let sep := if first then [] else item_separator in
               chunk <~ iterencode (S level) value ;;
               more <~ items false l' ;;
               Ret (sep ++ encode_basestring_ascii key ++ lit ": "
                    ++ chunk ++ more)
           end) true dct ;;
      Ret (lit "{" ++ newline_indent indent (S level) ++ body
           ++ newline_indent indent level ++ lit "}")
  | PyOther n =>
      Raise (Exception (lit "Object of type " ++ n
                        ++ lit " is not JSON serializable"))
  end.

End Encoder.

(** [json.dumps(obj, indent=indent)] *)
Definition dumps (obj : pyobj) (indent : nat) : outcome str :=
  iterencode indent 0 obj.

End Json.

(** [s.encode("utf-8")] *)
Module Utf8.

Open Scope N_scope.

Definition octet (n : N) : Byte.byte :=
  match Byte.of_N (n mod 256) with
  | Some b => b
  | None => Byte.x00
  end.

Definition is_surrogate (c : N) : bool := (55296 <=? c) && (c <=? 57343).

(** The octets of one code point that is not a surrogate. *)
Definition encode_char (c : N) : bytes :=
  if c <? 128 then [octet c]
  else if c <? 2048 then [octet (192 + c / 64); octet (128 + c mod 64)]
  else if c <? 65536 then
    [octet (224 + c / 4096); octet (128 + c / 64 mod 64);
     octet (128 + c mod 64)]
  else
    [octet (240 + c / 262144 mod 8); octet (128 + c / 4096 mod 64);
     octet (128 + c / 64 mod 64); octet (128 + c mod 64)].

(** A lone surrogate raises UnicodeEncodeError (its text is abbreviated
    here to the reason the codec gives). *)
Fixpoint encode (s : str) : outcome bytes :=
  match s with
  | [] => Ret []
  | c :: s' =>
      if is_surrogate c
      then Raise (Exception (lit "'utf-8' codec can't encode character: surrogates not allowed"))
      else rest <~ encode s' ;; Ret (encode_char c ++ rest)
  end.

End Utf8.

(* ================================================================== *)
(** ** The environment *)

(** [subprocess.CompletedProcess] with captured text output *)
Record CompletedProcess := {
  returncode : Z;
  stdout : str;
  stderr : str
}.

(** [requests.Response]; [headers] is the lookup of its case-insensitive
    header dictionary. *)
Record Response := {
  status_code : Z;
  content : bytes;
  headers : str -> option str
}.

(** What the operating system, the external executable and the network
    answer to each call of the provider. *)
Record system := {
  (** [tempfile.mkdtemp(prefix=...)]: the directory created, or the error *)
  sys_mkdtemp : str -> outcome str;
  (** [Path.write_bytes] *)
  sys_write_bytes : str -> bytes -> outcome unit;
  (** [subprocess.run(command, capture_output=True, text=True, timeout=...)] *)
  sys_run : list str -> Z -> outcome CompletedProcess;
  (** [import requests]: the module is there, or ImportError *)
  sys_import_requests : outcome unit;
  (** [requests.get(url, timeout=...)] *)
  sys_requests_get : str -> Z -> outcome Response
}.

Section Calls.

Variable sys : system.

Definition mkdtemp (prefix : str) : M str :=
  fun w =>
    let w1 := emit (Mkdtemp prefix) w in
    match sys_mkdtemp sys prefix with
    | Ret d => (Ret d, World (d :: dirs w1) (files w1) (trace w1))
    | Raise e => (Raise e, w1)
    end.

Definition write_bytes (path : str) (data : bytes) : M unit :=
  fun w =>
    let w1 := emit (WriteBytes path data) w in
    match sys_write_bytes sys path data with
    | Ret _ => (Ret tt, World (dirs w1) ((path, data) :: files w1) (trace w1))
    | Raise e => (Raise e, w1)
    end.

Definition subprocess_run (command : list str) (timeout : Z)
  : M CompletedProcess :=
  fun w => (sys_run sys command timeout, emit (Run command timeout) w).

Definition import_requests : M unit := lift (sys_import_requests sys).

Definition requests_get (url : str) (timeout : Z) : M Response :=
  fun w => (sys_requests_get sys url timeout, emit (HttpGet url timeout) w).

End Calls.

Definition under (dir : str) (entry : str * bytes) : bool :=
  startswith (fst entry) (dir ++ lit "/").

(** [shutil.rmtree(dir, ignore_errors=True)]: the directory and what is in
    it are gone afterwards, and nothing is raised. *)
Definition rmtree (dir : str) : M unit :=
  fun w =>
    (Ret tt,
     World (filter (fun d => negb (PyStr.eqb d dir)) (dirs w))
           (filter (fun f => negb (under dir f)) (files w))
           (trace w ++ [Rmtree dir])).

(** [os.path.exists] on a directory *)
Definition exists_dir (dir : str) (w : world) : bool :=
  existsb (PyStr.eqb dir) (dirs w).

(* ================================================================== *)
(** ** The provider *)

Record StorageResult := {
  success : bool;
  uri : str;
  hash : str;
  provider : str;
  cid : str;
  view_url : str;
  size : Z;
  metadata : list (str * pyobj);
  error : str
}.

(** [StorageResult(success=False, provider=..., error=...)]: the other
    fields keep the defaults of the dataclass. *)
Definition failure (provider error : str) : StorageResult :=
  {| success := false; uri := []; hash := []; provider := provider;
     cid := []; view_url := []; size := 0; metadata := []; error := error |}.

Record FilecoinPinStorageProvider := {
  filecoin_pin_path : str;
  auto_fund : bool;
  bare : bool;
  verbose : bool;
  private_key : option str
}.

Definition _filename_for_mime (mime : option str) : str :=
  match mime with
  | Some m =>
      if PyStr.eqb m (lit "application/json") then lit "chaoschain_proof.json"
      else if truthy mime && startswith m (lit "text/")
      then lit "chaoschain_payload.txt"
      else lit "chaoschain_payload.bin"
  | None => lit "chaoschain_payload.bin"
  end.

Definition _build_command (self : FilecoinPinStorageProvider) (temp_path : str)
  : list str :=
  let command := [filecoin_pin_path self; lit "add"; temp_path] in
  let command := if auto_fund self then command ++ [lit "--auto-fund"] else command in
  let command := if bare self then command ++ [lit "--bare"] else command in
  let command := if verbose self then command ++ [lit "--verbose"] else command in
  let command :=
    match private_key self with
    | Some (c :: k) => command ++ [lit "--private-key"; c :: k]
    | _ => command
    end in
  command.

(** The local variables of [_parse_cli_output], which become the values of
    the dictionary it returns under the keys of the same names. *)
Record cli_fields := {
  root_cid : option str;
  piece_cid : option str;
  data_set_id : option str;
  transaction_hash : option str;
  file_size_display : option str
}.

(** The label of the transaction hash line as the source file has it. *)
Definition hash_label : str := [226; 8221; 8218]%N ++ lit " Hash:".

Definition not_rparen (c : N) : bool := negb (c =? 41)%N.

(** An attempt of the pattern [IPFS content loaded \(([^)]+)\)] at the
    start of [s]: the group, when it matches. *)
Definition match_loaded (s : str) : option str :=
  let label := lit "IPFS content loaded (" in
  if startswith s label then
    let rest := skipn (List.length label) s in
    match take_while not_rparen rest, drop_while not_rparen rest with
    | c :: g, _ :: _ => Some (c :: g)
    | _, _ => None
    end
  else None.

(** [re.search(r"IPFS content loaded \(([^)]+)\)", s)]: group 1 of the
    leftmost match. *)
Fixpoint re_search_loaded (s : str) : option str :=
  match match_loaded s with
  | Some g => Some g
  | None =>
      match s with
      | [] => None
      | _ :: s' => re_search_loaded s'
      end
  end.

(** The body of the loop of [_parse_cli_output] on one line. *)
Definition parse_line (line : str) (f : cli_fields) : outcome cli_fields :=
  if contains line (lit "Root CID:") then
    v <~ item1 (split line (lit "Root CID:")) ;;
    Ret {| root_cid := Some (strip v); piece_cid := piece_cid f;
           data_set_id := data_set_id f;
           transaction_hash := transaction_hash f;
           file_size_display := file_size_display f |}
  else if contains line (lit "Piece CID:") then
    v <~ item1 (split line (lit "Piece CID:")) ;;
    Ret {| root_cid := root_cid f; piece_cid := Some (strip v);
           data_set_id := data_set_id f;
           transaction_hash := transaction_hash f;
           file_size_display := file_size_display f |}
  else if contains line (lit "Data Set ID:") then
    v <~ item1 (split line (lit "Data Set ID:")) ;;
    Ret {| root_cid := root_cid f; piece_cid := piece_cid f;
           data_set_id := Some (strip v);
           transaction_hash := transaction_hash f;
           file_size_display := file_size_display f |}
  else if startswith (strip line) hash_label then
    v <~ item1 (split line (lit "Hash:")) ;;
    Ret {| root_cid := root_cid f; piece_cid := piece_cid f;
           data_set_id := data_set_id f;
           transaction_hash := Some (strip v);
           file_size_display := file_size_display f |}
  else if contains line (lit "IPFS content loaded (") then
    match re_search_loaded line with
    | Some g =>
        Ret {| root_cid := root_cid f; piece_cid := piece_cid f;
               data_set_id := data_set_id f;
               transaction_hash := transaction_hash f;
               file_size_display := Some g |}
    | None => Ret f
    end
  else Ret f.

Fixpoint parse_lines (lines : list str) (f : cli_fields) : outcome cli_fields :=
  match lines with
  | [] => Ret f
  | line :: rest => f' <~ parse_line line f ;; parse_lines rest f'
  end.

Definition _parse_cli_output (output : str) : outcome cli_fields :=
  parse_lines (splitlines output)
    {| root_cid := None; piece_cid := None; data_set_id := None;
       transaction_hash := None; file_size_display := None |}.

Definition opt_str (o : option str) : pyobj :=
  match o with
  | Some s => PyStr s
  | None => PyNone
  end.

Definition tags_dict (tags : list (str * str)) : pyobj :=
  PyDict (List.map (fun kv => (PyStr (fst kv), PyStr (snd kv))) tags).

(** [print(a, b)]: the arguments separated by a space. *)
Definition print2 (a b : str) : M unit := print (a ++ lit " " ++ b).

Definition newline : str := [10%N].

(** The first statement of [upload_json]: the payload it stores. *)
Definition json_payload (data : pyobj) : outcome bytes :=
  text <~ Json.dumps data 2 ;; Utf8.encode text.

Section Provider.

Variable sys : system.
Variable self : FilecoinPinStorageProvider.

(** The statements of [put] under its inner [try], once the command ran. *)
Definition put_result (blob : bytes) (mime : option str)
    (tags : option (list (str * str))) (payload_filename : str)
    (result : CompletedProcess) : M StorageResult :=
  if (returncode result =? 0)%Z then
    metadata <- lift (_parse_cli_output (stdout result)) ;;
    match root_cid metadata with
    | Some (c :: r) =>
        let root_cid := c :: r in
        print (lit "Upload successful. Root CID: " ++ root_cid) ;;;
        let dweb_url :=
          lit "https://" ++ root_cid ++ lit ".ipfs.dweb.link/"
          ++ payload_filename in
        ret {| success := true;
               uri := lit "ipfs://" ++ root_cid;
               hash := root_cid;
               provider := lit "filecoin-pin";
               cid := root_cid;
               view_url := dweb_url;
               size := len blob;
               metadata :=
                 [(lit "piece_cid", opt_str (piece_cid metadata));
                  (lit "data_set_id", opt_str (data_set_id metadata));
                  (lit "transaction_hash", opt_str (transaction_hash metadata));
                  (lit "file_size_display", opt_str (file_size_display metadata));
                  (lit "mime_type", opt_str mime);
                  (lit "tags",
                   tags_dict match tags with Some t => t | None => [] end);
                  (lit "filecoin_pin", PyBool true);
                  (lit "payload_filename", PyStr payload_filename);
                  (lit "dweb_gateway_url", PyStr dweb_url)];
               error := [] |}
    | _ =>
        print (lit "filecoin-pin completed but no Root CID was found in the output.") ;;;
        print2 (lit "stdout:" ++ newline) (stdout result) ;;;
        print2 (lit "stderr:" ++ newline) (stderr result) ;;;
        ret (failure (lit "filecoin-pin")
               (lit "filecoin-pin completed without returning a Root CID"))
    end
  else
    print (lit "filecoin-pin returned a non-zero exit code.") ;;;
    print2 (lit "stdout:" ++ newline) (stdout result) ;;;
    print2 (lit "stderr:" ++ newline) (stderr result) ;;;
    ret (failure (lit "filecoin-pin")
           (or_else (Some (strip (stderr result)))
              (lit "filecoin-pin command failed"))).

(** The two [except] clauses of [put]. *)
Definition put_except (e : exn) : M StorageResult :=
  if is_TimeoutExpired e then
    ret (failure (lit "filecoin-pin")
           (lit "filecoin-pin command timed out after 5 minutes"))
  else
    ret (failure (lit "filecoin-pin") (lit "Storage error: " ++ exn_str e)).

Definition put (blob : bytes) (mime : option str)
    (tags : option (list (str * str))) (idempotency_key : option str)
  : M StorageResult :=
  try_except
    (let payload_filename := _filename_for_mime mime in
     temp_dir <- mkdtemp sys (lit "chaoschain_filecoin_pin_") ;;
     let temp_path := temp_dir ++ lit "/" ++ payload_filename in
     write_bytes sys temp_path blob ;;;
     try_finally
       (let command := _build_command self temp_path in
        print (lit "Uploading " ++ of_Z (len blob)
               ++ lit " bytes via filecoin-pin...") ;;;
        result <- subprocess_run sys command 300 ;;
        put_result blob mime tags payload_filename result)
       (rmtree temp_dir))
    put_except.

(** The gateway URLs of [get], in the order they are tried. *)
Definition gateways (cid : str) : list str :=
  [lit "https://ipfs.io/ipfs/" ++ cid;
   lit "https://gateway.pinata.cloud/ipfs/" ++ cid;
   lit "https://cloudflare-ipfs.com/ipfs/" ++ cid;
   lit "https://dweb.link/ipfs/" ++ cid].

(** One round of the loop of [get]: what it returns, if it returns. *)
Definition get_attempt (gateway_url : str)
  : M (option (bytes * list (str * pyobj))) :=
  try_except
    (print (lit "Attempting retrieval from: " ++ gateway_url) ;;;
     response <- requests_get sys gateway_url 30 ;;
     if (status_code response =? 200)%Z then
       let metadata :=
         [(lit "content-type", opt_str (headers response (lit "Content-Type")));
          (lit "content-length", opt_str (headers response (lit "Content-Length")));
          (lit "gateway", PyStr gateway_url)] in
       print (lit "Successfully retrieved content from: " ++ gateway_url) ;;;
       ret (Some (content response, metadata))
     else
       print (lit "Gateway returned HTTP " ++ of_Z (status_code response)
              ++ lit ": " ++ gateway_url) ;;;
       ret None)
    (fun e =>
       print (lit "Failed to retrieve from " ++ gateway_url ++ lit ": "
              ++ exn_str e) ;;;
       ret None).

(** The loop of [get] and the statement after it. *)
Fixpoint get_loop (urls : list str) : M (bytes * list (str * pyobj)) :=
  match urls with
  | [] => raise (Exception (lit "Failed to retrieve from any IPFS gateway"))
  | gateway_url :: rest =>
      r <- get_attempt gateway_url ;;
      match r with
      | Some v => ret v
      | None => get_loop rest
      end
  end.

Definition get (uri : str) : M (bytes * list (str * pyobj)) :=
  let cid := replace uri (lit "ipfs://") [] in
  try_except
    (let gateways := gateways cid in
     import_requests sys ;;;
     get_loop gateways)
    (fun e => raise (Exception (lit "Error retrieving from IPFS: " ++ exn_str e))).

Definition verify (uri expected_hash : str) : bool :=
  let cid := replace uri (lit "ipfs://") [] in
  let expected_cid := replace expected_hash (lit "ipfs://") [] in
  PyStr.eqb cid expected_cid.

Definition delete (uri : str) : M bool :=
  print (lit "Delete not supported: Filecoin data cannot be removed once stored.") ;;;
  ret false.

Definition upload_json (data : pyobj) (filename : option str)
  : M (option str) :=
  try_except
    (json_data <- lift (json_payload data) ;;
     result <- put json_data (Some (lit "application/json"))
                 (Some [(lit "filename", or_else filename (lit "data.json"))])
                 None ;;
     if success result then ret (Some (cid result))
     else
       print (lit "Failed to upload JSON to Filecoin: " ++ error result) ;;;
       ret None)
    (fun e =>
       print (lit "Exception during JSON upload: " ++ exn_str e) ;;;
       ret None).

End Provider.

(** The reading of "stripping the leading prefix" that [verify] is compared
    with: the first seven code points go when they are [ipfs://], and the
    string is left alone otherwise. *)
Definition strip_leading_prefix (s : str) : str :=
  if startswith s (lit "ipfs://") then skipn 7 s else s.

(** [sep.join(parts)] *)
Fixpoint join (sep : str) (parts : list str) : str :=
  match parts with
  | [] => []
  | [p] => p
  | p :: ps => p ++ sep ++ join sep ps
  end.

(** The text of one dictionary item at nesting level 1: key, [": "], value. *)
Definition item_text (indent : nat) (kv : pyobj * pyobj) : outcome str :=
  key <~ Json.key_text (fst kv) ;;
  chunk <~ Json.iterencode indent 1 (snd kv) ;;
  Ret (Json.encode_basestring_ascii key ++ lit ": " ++ chunk).

(** The texts of all items, in the order of the list; the first error wins. *)
Fixpoint item_texts (indent : nat) (items : list (pyobj * pyobj))
  : outcome (list str) :=
  match items with
  | [] => Ret []
  | kv :: rest =>
      t <~ item_text indent kv ;;
      ts <~ item_texts indent rest ;;
      Ret (t :: ts)
  end.

(** The URLs requested, in order, in a trace. *)
Fixpoint requests_of (t : list event) : list str :=
  match t with
  | [] => []
  | HttpGet url _ :: t' => url :: requests_of t'
  | _ :: t' => requests_of t'
  end.

(** A gateway fails: the request raises, or the status is not 200. *)
Definition gateway_fails (sys : system) (url : str) : Prop :=
  match sys_requests_get sys url 30 with
  | Ret response => status_code response <> 200%Z
  | Raise _ => True
  end.

(** The two shapes of a result of [put]. *)
Definition is_success (blob : bytes) (r : StorageResult) : Prop :=
  success r = true /\ cid r <> [] /\ error r = [] /\
  uri r = lit "ipfs://" ++ cid r /\ hash r = cid r /\ size r = len blob.

Definition is_failure (r : StorageResult) : Prop :=
  success r = false /\ cid r = [] /\ error r <> [] /\
  uri r = [] /\ size r = 0%Z.

(** Everything went well for [put]: the staging, the run of the command
    with exit code 0, and a non-empty root CID in its output. *)
Definition upload_done (sys : system) (self : FilecoinPinStorageProvider)
    (blob : bytes) (mime : option str) (root : str) : Prop :=
  exists temp_dir result fields,
    sys_mkdtemp sys (lit "chaoschain_filecoin_pin_") = Ret temp_dir /\
    sys_write_bytes sys (temp_dir ++ lit "/" ++ _filename_for_mime mime) blob
      = Ret tt /\
    sys_run sys
      (_build_command self (temp_dir ++ lit "/" ++ _filename_for_mime mime))
      300 = Ret result /\
    returncode result = 0%Z /\
    _parse_cli_output (stdout result) = Ret fields /\
    root_cid fields = Some root /\ root <> [].

(** Two dictionaries with the same keys and values, filled in a different
    order. *)
Definition items_ab : list (pyobj * pyobj) :=
  [(PyStr (lit "a"), PyInt 1); (PyStr (lit "b"), PyInt 2)].

Definition items_ba : list (pyobj * pyobj) :=
  [(PyStr (lit "b"), PyInt 2); (PyStr (lit "a"), PyInt 1)].

(* ================================================================== *)
(** ** Sample environments *)

Definition world0 : world := World [] [] [].

Definition sample_self : FilecoinPinStorageProvider :=
  {| filecoin_pin_path := lit "filecoin-pin"; auto_fund := true;
     bare := false; verbose := false; private_key := None |}.

Definition sample_dir : str := lit "/tmp/chaoschain_filecoin_pin_k3v9".

Definition unreachable : str -> Z -> outcome Response :=
  fun _ _ => Raise (Exception (lit "connection refused")).

(** The staging succeeds and the executable answers [run]. *)
Definition sys_running (run : outcome CompletedProcess) : system :=
  {| sys_mkdtemp := fun _ => Ret sample_dir;
     sys_write_bytes := fun _ _ => Ret tt;
     sys_run := fun _ _ => run;
     sys_import_requests := Ret tt;
     sys_requests_get := unreachable |}.

(** The directory is created, then the disk is full. *)
Definition sys_disk_full : system :=
  {| sys_mkdtemp := fun _ => Ret sample_dir;
     sys_write_bytes :=
       fun _ _ => Raise (Exception (lit "[Errno 28] No space left on device"));
     sys_run := fun _ _ => Raise (Exception (lit "not reached"));
     sys_import_requests := Ret tt;
     sys_requests_get := unreachable |}.

Definition exit_ok (out : str) : outcome CompletedProcess :=
  Ret {| returncode := 0; stdout := out; stderr := [] |}.

Definition exit_error : outcome CompletedProcess :=
  Ret {| returncode := 1; stdout := []; stderr := lit "insufficient funds" |}.

Definition sample_response : Response :=
  {| status_code := 200; content := [Byte.x68; Byte.x69];
     headers := fun name =>
       if PyStr.eqb name (lit "Content-Type") then Some (lit "text/plain")
       else None |}.

(** The first gateway is down, the second answers, the others are not
    reachable. *)
Definition sys_second_gateway : system :=
  {| sys_mkdtemp := fun _ => Raise (Exception (lit "not used"));
     sys_write_bytes := fun _ _ => Raise (Exception (lit "not used"));
     sys_run := fun _ _ => Raise (Exception (lit "not used"));
     sys_import_requests := Ret tt;
     sys_requests_get := fun url _ =>
       if PyStr.eqb url (lit "https://gateway.pinata.cloud/ipfs/abc")
       then Ret sample_response
       else Raise (Exception (lit "connection refused")) |}.

(** No gateway answers. *)
Definition sys_offline : system :=
  {| sys_mkdtemp := fun _ => Raise (Exception (lit "not used"));
     sys_write_bytes := fun _ _ => Raise (Exception (lit "not used"));
     sys_run := fun _ _ => Raise (Exception (lit "not used"));
     sys_import_requests := Ret tt;
     sys_requests_get := unreachable |}.

(* ================================================================== *)
(** ** Readings of a trace *)

(** The commands run, with their time limits, in order. *)
Fixpoint runs_of (t : list event) : list (list str * Z) :=
  match t with
  | [] => []
  | Run command timeout :: t' => (command, timeout) :: runs_of t'
  | _ :: t' => runs_of t'
  end.

(** The HTTP requests made, with their time limits, in order. *)
Fixpoint http_calls_of (t : list event) : list (str * Z) :=
  match t with
  | [] => []
  | HttpGet url timeout :: t' => (url, timeout) :: http_calls_of t'
  | _ :: t' => http_calls_of t'
  end.

(** The temporary directories asked for, by prefix, in order. *)
Fixpoint mkdtemps_of (t : list event) : list str :=
  match t with
  | [] => []
  | Mkdtemp prefix :: t' => prefix :: mkdtemps_of t'
  | _ :: t' => mkdtemps_of t'
  end.

(** The command [put] runs once the payload is staged in [temp_dir]. *)
Definition staged_command (sys : system) (self : FilecoinPinStorageProvider)
    (blob : bytes) (mime : option str) : list (list str * Z) :=
  match sys_mkdtemp sys (lit "chaoschain_filecoin_pin_") with
  | Ret temp_dir =>
      match sys_write_bytes sys
              (temp_dir ++ lit "/" ++ _filename_for_mime mime) blob with
      | Ret _ =>
          [(_build_command self
              (temp_dir ++ lit "/" ++ _filename_for_mime mime), 300%Z)]
      | Raise _ => []
      end
  | Raise _ => []
  end.

(** No code point of the string is a line boundary. *)
Definition one_line (s : str) : Prop :=
  Forall (fun c => is_linebreak c = false) s.

(** A value the parser stores: nothing to strip at its ends, and on one
    line. *)
Definition clean_value (o : option str) : Prop :=
  forall v, o = Some v -> strip v = v /\ one_line v.

(** What holds of the fields [_parse_cli_output] returns. *)
Definition fields_clean (f : cli_fields) : Prop :=
  clean_value (root_cid f) /\ clean_value (piece_cid f) /\
  clean_value (data_set_id f) /\ clean_value (transaction_hash f) /\
  (forall g, file_size_display f = Some g ->
             g <> [] /\ one_line g /\ Forall (fun c => c <> 41%N) g).

(** The start of an output before one of its lines: nothing, or text that
    ends with a line feed. *)
Definition at_line_start (head : str) : Prop :=
  head = [] \/ exists s, head = s ++ [10%N].

(* ================================================================== *)
(** ** Construction of the provider *)

(** The classes of exception that the handlers of [_verify_filecoin_pin]
    tell apart, and the class of the one it raises itself. *)
Inductive exc_class : Type :=
| FileNotFoundError
| TimeoutExpiredError
| RuntimeError
| OtherError.

(** What [subprocess.run] answers to the version command: the completed
    process, or the exception it raises, by class and text. *)
Inductive run_answer : Type :=
| Completed (result : CompletedProcess)
| Raised (class : exc_class) (text : str).

Section Construction.

Variable run_version : list str -> Z -> run_answer.

(** The statements under the [try] of [_verify_filecoin_pin]. *)
Definition version_check (self : FilecoinPinStorageProvider)
  : world -> (unit + exc_class * str) * world :=
  fun w =>
    let command := [filecoin_pin_path self; lit "--version"] in
    let w1 := emit (Run command 10) w in
    match run_version command 10%Z with
    | Completed result =>
        if negb (returncode result =? 0)%Z then
          (inr (RuntimeError,
                lit "filecoin-pin CLI returned non-zero exit code: "
                ++ strip (stderr result)), w1)
        else
          (inl tt,
           emit (Print (lit "filecoin-pin detected: " ++ strip (stdout result)))
             w1)
    | Raised class text => (inr (class, text), w1)
    end.

Definition _verify_filecoin_pin (self : FilecoinPinStorageProvider) : M unit :=
  fun w =>
    match version_check self w with
    | (inl _, w') => (Ret tt, w')
    | (inr (FileNotFoundError, _), w') =>
        (Raise (Exception (lit "filecoin-pin not found at path: "
                           ++ filecoin_pin_path self)), w')
    | (inr (TimeoutExpiredError, _), w') =>
        (Raise (Exception (lit "filecoin-pin version command timed out")), w')
    | (inr (_, text), w') => (Raise (Exception text), w')
    end.

Definition __init__ (filecoin_pin_path : str) (auto_fund bare verbose : bool)
    (private_key : option str) : M FilecoinPinStorageProvider :=
  let self :=
    {| filecoin_pin_path := filecoin_pin_path; auto_fund := auto_fund;
       bare := bare; verbose := verbose; private_key := private_key |} in
  _verify_filecoin_pin self ;;;
  ret self.

End Construction.

(* ================================================================== *)
(** ** The diagnostic of [test_storage_provider.py] *)

Definition quoted (s : str) : str := [34%N] ++ s ++ [34%N].

(** The octets of an ASCII literal. *)
Definition ascii_bytes (s : str) : bytes := List.map Utf8.octet s.

Fixpoint bytes_eqb (a b : bytes) : bool :=
  match a, b with
  | [], [] => true
  | x :: a', y :: b' => Byte.eqb x y && bytes_eqb a' b'
  | _, _ => false
  end.

(** [d.get(key)] *)
Definition dict_get (d : list (str * pyobj)) (key : str) : pyobj :=
  match find (fun kv => PyStr.eqb (fst kv) key) d with
  | Some kv => snd kv
  | None => PyNone
  end.

Definition as_dict (d : list (str * pyobj)) : pyobj :=
  PyDict (List.map (fun kv => (PyStr (fst kv), snd kv)) d).

Definition str_of_bool (b : bool) : str :=
  if b then lit "True" else lit "False".

Definition test_data : bytes :=
  ascii_bytes
    (lit "{" ++ quoted (lit "test") ++ lit ": "
     ++ quoted (lit "ChaosChain Filecoin Pin Integration") ++ lit ","
     ++ quoted (lit "message") ++ lit ": "
     ++ quoted (lit "Verification payload for filecoin-pin CLI") ++ lit ","
     ++ quoted (lit "source") ++ lit ": "
     ++ quoted (lit "test_storage_provider.py") ++ lit "}").

Section Diagnostic.

Variable sys : system.
Variable run_version : list str -> Z -> run_answer.
(** [os.getenv] *)
Variable getenv : str -> option str.
(** The text an f-string writes for an object. *)
Variable format : pyobj -> str.

Definition test_storage_provider : M bool :=
  print (repeat 61%N 50) ;;;
  print (lit "Filecoin Pin Storage Provider Diagnostic") ;;;
  print (repeat 61%N 50) ;;;
  try_except
    (print (lit "Initialising storage provider...") ;;;
     provider <- __init__ run_version (lit "filecoin-pin") true false true
                   (getenv (lit "FILECOIN_CALIBRATION_PRIVATE_KEY")) ;;
     print (lit "Storage provider initialised.") ;;;
     print (newline ++ lit "Uploading sample payload...") ;;;
     result <- put sys provider test_data (Some (lit "application/json"))
                 (Some [(lit "test", lit "true");
                        (lit "source", lit "chaoschain-demo")])
                 None ;;
     if negb (success result) then
       print (lit "Upload failed: " ++ error result) ;;;
       ret false
     else
       print (lit "Upload succeeded.") ;;;
       print (lit "CID: " ++ cid result) ;;;
       print (lit "View URL: " ++ view_url result) ;;;
       print (lit "Metadata: " ++ format (as_dict (metadata result))) ;;;
       print (newline ++ lit "Retrieving content through public gateway...") ;;;
       got <- get sys (uri result) ;;
       let retrieved_data := fst got in
       let metadata := snd got in
       print (lit "Retrieved " ++ of_Z (len retrieved_data) ++ lit " bytes via "
              ++ format (dict_get metadata (lit "gateway")) ++ lit ".") ;;;
       print (lit "Content matches original: "
              ++ str_of_bool (bytes_eqb retrieved_data test_data)) ;;;
       print (newline ++ lit "Verifying CID integrity...") ;;;
       let verified := verify (uri result) (cid result) in
       print (lit "Verification result: " ++ str_of_bool verified) ;;;
       ret verified)
    (fun exc =>
       print (lit "Diagnostic run failed: " ++ exn_str exc) ;;;
       ret false).

End Diagnostic.

(** The provider the diagnostic constructs. *)
Definition diagnostic_provider (getenv : str -> option str)
  : FilecoinPinStorageProvider :=
  {| filecoin_pin_path := lit "filecoin-pin"; auto_fund := true;
     bare := false; verbose := true;
     private_key := getenv (lit "FILECOIN_CALIBRATION_PRIVATE_KEY") |}.

(** The version command completed with exit code 0. *)
Definition version_ok (run_version : list str -> Z -> run_answer)
    (path : str) : Prop :=
  exists result,
    run_version [path; lit "--version"] 10%Z = Completed result /\
    returncode result = 0%Z.

(** Some gateway of the list answers 200. *)
Definition some_gateway_answers (sys : system) (cid : str) : Prop :=
  exists url response,
    In url (gateways cid) /\
    sys_requests_get sys url 30 = Ret response /\
    status_code response = 200%Z.

(** Sample answers to the version command. *)
Definition version_installed : list str -> Z -> run_answer :=
  fun _ _ =>
    Completed {| returncode := 0; stdout := lit "0.9.1"; stderr := [] |}.

Definition version_missing : list str -> Z -> run_answer :=
  fun _ _ => Raised FileNotFoundError (lit "[Errno 2] No such file or directory").

(** The upload succeeds and the second gateway answers. *)
Definition sys_end_to_end : system :=
  {| sys_mkdtemp := fun _ => Ret sample_dir;
     sys_write_bytes := fun _ _ => Ret tt;
     sys_run := fun _ _ => exit_ok (lit "Root CID: abc");
     sys_import_requests := Ret tt;
     sys_requests_get := fun url _ =>
       if PyStr.eqb url (lit "https://gateway.pinata.cloud/ipfs/abc")
       then Ret sample_response
       else Raise (Exception (lit "connection refused")) |}.

(* ================================================================== *)
(** ** [agent.py]: reachability of a CID, and the RPC variables *)

(** What [requests.get] answers to [verify_ipfs_content]: a response, an
    exception of the class [requests.exceptions.RequestException], which
    the function catches, or any other exception, which it does not. *)
Inductive request_answer : Type :=
| Answered (response : Response)
| RequestException (text : str)
| OtherException (text : str).

Section Agent.

Variable contact : str -> Z -> request_answer.

Definition verify_ipfs_content (cid : str) : M bool :=
  match cid with
  | [] => ret false
  | _ :: _ =>
      let contact_url := lit "https://filecoinpin.contact/cid/" ++ cid in
      print (lit "Verifying IPFS content availability...") ;;;
      print (lit "Checking: " ++ contact_url) ;;;
      fun w =>
        let w1 := emit (HttpGet contact_url 10) w in
        match contact contact_url 10%Z with
        | Answered response =>
            if (status_code response =? 200)%Z then
              (print (lit "IPFS content is reachable via filecoinpin.contact.") ;;;
               ret true) w1
            else
              (print (lit "filecoinpin.contact returned status "
                      ++ of_Z (status_code response) ++ lit ".") ;;;
               ret false) w1
        | RequestException text =>
            (print (lit "Could not verify IPFS content via filecoinpin.contact: "
                    ++ text) ;;;
             ret false) w1
        | OtherException text => (Raise (Exception text), w1)
        end
  end.

End Agent.

(** [os.environ]: the value of each variable that is set. *)
Definition environ := str -> option str.

(** [os.environ[key] = value] *)
Definition setenv (env : environ) (key value : str) : environ :=
  fun k => if PyStr.eqb k key then Some value else env k.

Definition RPC_ENV_MAPPINGS : list (str * str) :=
  [(lit "BASE_SEPOLIA_RPC_URL", lit "BASE-SEPOLIA_RPC_URL");
   (lit "FILECOIN_CALIBRATION_RPC_URL", lit "FILECOIN-CALIBRATION_RPC_URL")].

(** The loop at the top of [agent.py] over the items of a mapping. *)
Fixpoint mirror_env (mappings : list (str * str)) (env : environ) : environ :=
  match mappings with
  | [] => env
  | (underscore_key, hyphen_key) :: rest =>
      let value := env underscore_key in
      let env :=
        match value, env hyphen_key with
        | Some (c :: v), None => setenv env hyphen_key (c :: v)
        | _, _ => env
        end in
      mirror_env rest env
  end.

Definition mirror_rpc_env : environ -> environ := mirror_env RPC_ENV_MAPPINGS.

(** A sample environment with one RPC variable set. *)
Definition env_base_only : environ :=
  fun k =>
    if PyStr.eqb k (lit "BASE_SEPOLIA_RPC_URL")
    then Some (lit "https://sepolia.base.org") else None.

(* ================================================================== *)
(** ** [generate_wallet.py] *)

(** How a script ends: it finishes, it exits with a status through
    [SystemExit], or an exception escapes it. *)
Inductive ending (A : Type) : Type :=
| Finished (a : A)
| SystemExit (code : Z)
| Escaped (e : exn).
Arguments SystemExit {A} code.
Arguments Escaped {A} e.

Section Wallet.

(** [from eth_account import Account]: [None] when the import fails,
    otherwise [Account.from_key], which gives the address of the key. *)
Variable account_from_key : option (str -> outcome str).
Variable getenv : str -> option str.
(** [Path(__file__).resolve().parents[1]] *)
Variable repo_root : str.
(** [Path.write_text] on the octets of the text *)
Variable write_text : str -> bytes -> outcome unit.

(** [os.getenv(name, default)] *)
Definition getenv_default (name default : str) : str :=
  match getenv name with
  | Some v => v
  | None => default
  end.

(** [error(message)] *)
Definition error_exit (A : Type) (message : str) : world -> ending A * world :=
  fun w => (SystemExit 1, emit (Print (lit "ERROR: " ++ message)) w).

Definition wallet_address_of (address_override : option str)
    (account_address : str) : str :=
  match address_override with
  | Some (c :: a) =>
      if negb (PyStr.eqb (c :: a) (lit "your-base-sepolia-address"))
      then c :: a else account_address
  | _ => account_address
  end.

Definition wallet_data (agent_name wallet_address private_key : str) : pyobj :=
  PyDict [(PyStr agent_name,
           PyDict [(PyStr (lit "address"), PyStr wallet_address);
                   (PyStr (lit "private_key"), PyStr private_key)])].

Definition wallet_main : world -> ending unit * world :=
  fun w =>
    match account_from_key with
    | None =>
        error_exit unit
          (lit "eth-account is not installed. Run 'make install' first.") w
    | Some from_key =>
        let agent_name :=
          getenv_default (lit "CHAOS_AGENT_NAME") (lit "FilecoinPinDemoAgent") in
        let private_key := getenv (lit "BASE_SEPOLIA_PRIVATE_KEY") in
        let address_override := getenv (lit "BASE_SEPOLIA_ADDRESS") in
        match private_key with
        | Some (c :: k) =>
            let private_key := c :: k in
            if PyStr.eqb private_key (lit "your-base-sepolia-private-key") then
              error_exit unit
                (lit "BASE_SEPOLIA_PRIVATE_KEY is not configured in the environment.")
                w
            else
              match from_key private_key with
              | Raise e => (Escaped e, w)
              | Ret account_address =>
                  let wallet_address :=
                    wallet_address_of address_override account_address in
                  let output_path := repo_root ++ lit "/chaoschain_wallets.json" in
                  match text <~ Json.dumps
                                  (wallet_data agent_name wallet_address private_key) 2 ;;
                        Utf8.encode text with
                  | Raise e => (Escaped e, w)
                  | Ret data =>
                      let w1 := emit (WriteBytes output_path data) w in
                      match write_text output_path data with
                      | Raise e => (Escaped e, w1)
                      | Ret _ =>
                          (Finished tt,
                           emit (Print (lit "Wrote wallet data to " ++ output_path))
                             (emit (Print (lit "ChaosChain wallet created for "
                                           ++ agent_name ++ lit " at "
                                           ++ wallet_address))
                                (World (dirs w1)
                                   ((output_path, data) :: files w1)
                                   (trace w1))))
                      end
                  end
              end
        | _ =>
            error_exit unit
              (lit "BASE_SEPOLIA_PRIVATE_KEY is not configured in the environment.")
              w
        end
    end.

End Wallet.

(** The files written, with their contents, in order. *)
Fixpoint writes_of (t : list event) : list (str * bytes) :=
  match t with
  | [] => []
  | WriteBytes path data :: t' => (path, data) :: writes_of t'
  | _ :: t' => writes_of t'
  end.



Definition sample_from_key : option (str -> outcome str) :=
  Some (fun _ => Ret (lit "0xderived")).

(** The text of the wallet file: the agent's name, and under it the
    address and the private key, indented by two spaces a level. *)
Definition wallet_json (agent_name wallet_address private_key : str) : str :=
  lit "{" ++ Json.newline_indent 2 1
  ++ Json.encode_basestring_ascii agent_name ++ lit ": "
  ++ lit "{" ++ Json.newline_indent 2 2
  ++ Json.encode_basestring_ascii (lit "address") ++ lit ": "
  ++ Json.encode_basestring_ascii wallet_address
  ++ lit "," ++ Json.newline_indent 2 2
  ++ Json.encode_basestring_ascii (lit "private_key") ++ lit ": "
  ++ Json.encode_basestring_ascii private_key
  ++ Json.newline_indent 2 1 ++ lit "}"
  ++ Json.newline_indent 2 0 ++ lit "}".

(** The script has nothing to work with: the library is missing, or the
    private key is not set, empty, or still the placeholder. *)
Definition wallet_not_configured (account_from_key : option (str -> outcome str))
    (getenv : str -> option str) : Prop :=
  account_from_key = None \/
  getenv (lit "BASE_SEPOLIA_PRIVATE_KEY") = None \/
  getenv (lit "BASE_SEPOLIA_PRIVATE_KEY") = Some [] \/
  getenv (lit "BASE_SEPOLIA_PRIVATE_KEY")
  = Some (lit "your-base-sepolia-private-key").

(** All code points are ASCII. *)
Definition is_ascii (s : str) : Prop := Forall (fun c => (c < 128)%N) s.

(** The text of one item of a dictionary of strings. *)
Definition string_item (kv : str * str) : str :=
  Json.encode_basestring_ascii (fst kv) ++ lit ": "
  ++ Json.encode_basestring_ascii (snd kv).

(** The text [json.dumps] gives, with an indent of two, for a dictionary of
    strings that is not empty. *)
Definition strings_json (items : list (str * str)) : str :=
  lit "{" ++ Json.newline_indent 2 1
  ++ join (lit "," ++ Json.newline_indent 2 1) (List.map string_item items)
  ++ Json.newline_indent 2 0 ++ lit "}".

(** An exception reaches the handlers of [put] from one of its three
    calls. *)
Definition put_raises (sys : system) (self : FilecoinPinStorageProvider)
    (blob : bytes) (mime : option str) (e : exn) : Prop :=
  sys_mkdtemp sys (lit "chaoschain_filecoin_pin_") = Raise e \/
  (exists temp_dir,
     sys_mkdtemp sys (lit "chaoschain_filecoin_pin_") = Ret temp_dir /\
     (sys_write_bytes sys (temp_dir ++ lit "/" ++ _filename_for_mime mime) blob
      = Raise e \/
      (sys_write_bytes sys (temp_dir ++ lit "/" ++ _filename_for_mime mime) blob
       = Ret tt /\
       sys_run sys
         (_build_command self (temp_dir ++ lit "/" ++ _filename_for_mime mime))
         300 = Raise e))).

(** The executable cannot be started. *)
Definition sys_not_startable : system :=
  sys_running (Raise (Exception (lit "[Errno 13] Permission denied"))).


(** Something no JSON encoder takes, under a key. *)
Definition unserializable_data : pyobj :=
  PyDict [(PyStr (lit "when"), PyOther (lit "datetime"))].

Arguments lit : simpl never.
Arguments of_Z : simpl never.

(* ================================================================== *)
(** * Facts about the string operations *)

Section StrFacts.

Lemma eqb_refl (a : str) : PyStr.eqb a a = true.
Proof.
  induction a as [|x a IH]; simpl; [reflexivity|].
  now rewrite N.eqb_refl, IH.
Qed.

Lemma eqb_eq (a b : str) : PyStr.eqb a b = true <-> a = b.
Proof.
  split; [|intros ->; apply eqb_refl].
  revert b; induction a as [|x a IH]; intros [|y b]; simpl; try discriminate; auto.
  intros H; apply andb_prop in H as [Hx Hr].
  apply N.eqb_eq in Hx; subst; f_equal; auto.
Qed.

Lemma startswith_spec (s p : str) :
  startswith s p = true <-> exists t, s = p ++ t.
Proof.
  revert s; induction p as [|x p IH]; intros s; simpl.
  - split; [intros _; exists s; reflexivity | reflexivity].
  - destruct s as [|y s].
    + split; [discriminate | intros [t Ht]; discriminate].
    + rewrite andb_true_iff, N.eqb_eq, IH; split.
      * intros [-> [t ->]]; eauto.
      * intros [t Ht]; injection Ht as -> ->; eauto.
Qed.

Lemma startswith_app (p t : str) : startswith (p ++ t) p = true.
Proof. apply startswith_spec; eauto. Qed.

Lemma contains_spec (s sub : str) :
  contains s sub = true <-> exists pre post, s = pre ++ sub ++ post.
Proof.
  induction s as [|c s IH]; simpl.
  - rewrite orb_false_r, startswith_spec; split.
    + intros [t Ht]; exists [], t; exact Ht.
    + intros [pre [post H]]; destruct pre; [exists post; exact H | discriminate].
  - rewrite orb_true_iff, startswith_spec, IH; split.
    + intros [[t Ht] | [pre [post ->]]].
      * exists [], t; exact Ht.
      * exists (c :: pre), post; reflexivity.
    + intros [[|d pre] [post H]].
      * left; exists post; exact H.
      * right; injection H as -> ->; eauto.
Qed.

Lemma contains_app (pre m post sub : str) :
  contains m sub = true -> contains (pre ++ m ++ post) sub = true.
Proof.
  rewrite !contains_spec; intros [a [b ->]].
  exists (pre ++ a), (b ++ post); now rewrite <- !app_assoc.
Qed.

Lemma contains_tail (c : N) (s sub : str) :
  contains (c :: s) sub = false -> contains s sub = false.
Proof. simpl; intros H; now apply orb_false_elim in H. Qed.

(** Once inside a matched occurrence, the scan passes over the rest of it. *)
Lemma replace_from_skip (u t old new : str) :
  replace_from (List.length u) (u ++ t) old new = replace_from 0 t old new.
Proof. induction u as [|c u IH]; simpl; auto. Qed.

Lemma replace_from_occurrence (c : N) (old t new : str) :
  replace_from 0 ((c :: old) ++ t) (c :: old) new
  = new ++ replace_from 0 t (c :: old) new.
Proof.
  cbn [app replace_from].
  change (startswith (c :: old ++ t) (c :: old))
    with (startswith ((c :: old) ++ t) (c :: old)).
  rewrite startswith_app.
  replace (List.length (c :: old) - 1)%nat with (List.length old)
    by (simpl; lia).
  now rewrite replace_from_skip.
Qed.

Lemma replace_from_absent (s old new : str) :
  contains s old = false -> replace_from 0 s old new = s.
Proof.
  induction s as [|c s IH]; intros H; [reflexivity|].
  simpl in H; apply orb_false_elim in H as [H1 H2].
  cbn [replace_from]; rewrite H1; f_equal; auto.
Qed.

(** The two uses the source makes of [replace]: a string without the
    prefix is left alone, and a leading prefix is removed. *)
Lemma replace_absent (s : str) :
  contains s (lit "ipfs://") = false -> replace s (lit "ipfs://") [] = s.
Proof. intros H; now apply (replace_from_absent _ _ []). Qed.

Lemma replace_leading (t : str) :
  contains t (lit "ipfs://") = false ->
  replace (lit "ipfs://" ++ t) (lit "ipfs://") [] = t.
Proof.
  intros H; unfold replace; change (lit "ipfs://") with (105 :: lit "pfs://")%N.
  rewrite replace_from_occurrence; simpl app.
  now apply replace_from_absent.
Qed.

Lemma replace_strip_leading_prefix (s : str) :
  contains (strip_leading_prefix s) (lit "ipfs://") = false ->
  replace s (lit "ipfs://") [] = strip_leading_prefix s.
Proof.
  unfold strip_leading_prefix.
  destruct (startswith s (lit "ipfs://")) eqn:E.
  - apply startswith_spec in E as [t ->].
    change (skipn 7 (lit "ipfs://" ++ t)) with t.
    apply replace_leading.
  - apply replace_absent.
Qed.

End StrFacts.

(* ================================================================== *)
(** * Verification of content identifiers *)

(** C7, as stated, fails: [verify] removes every occurrence of the prefix,
    not only a leading one, so a prefix inside the first string makes it
    equal to a second string that differs from it after stripping the
    leading prefix of each. *)
Lemma verify_inner_prefix :
  (verify (lit "aipfs://b") (lit "ab") = true /\
   strip_leading_prefix (lit "aipfs://b") <> strip_leading_prefix (lit "ab")) /\
  (verify (lit "ipfs://ipfs://abc") (lit "ipfs://abc") = true /\
   strip_leading_prefix (lit "ipfs://ipfs://abc")
   <> strip_leading_prefix (lit "ipfs://abc")).
Proof. repeat split; discriminate. Qed.

(** C7, amended: [verify uri expected_hash] is true exactly when the two
    strings are equal after every occurrence of [ipfs://] is removed from
    each; for strings in which the prefix occurs at most at the start this
    is equality after stripping the leading prefix, a no-op when it is
    absent; and the three sample calls give true, true and false. *)
Theorem verify_compares_cids :
  (forall uri expected_hash,
     verify uri expected_hash = true <->
     replace uri (lit "ipfs://") [] = replace expected_hash (lit "ipfs://") []) /\
  (forall uri expected_hash,
     contains (strip_leading_prefix uri) (lit "ipfs://") = false ->
     contains (strip_leading_prefix expected_hash) (lit "ipfs://") = false ->
     (verify uri expected_hash = true <->
      strip_leading_prefix uri = strip_leading_prefix expected_hash)) /\
  verify (lit "ipfs://abc") (lit "ipfs://abc") = true /\
  verify (lit "ipfs://abc") (lit "abc") = true /\
  verify (lit "abc") (lit "ipfs://xyz") = false.
Proof.
  split; [|split; [|repeat split]].
  - intros uri expected_hash; unfold verify; apply eqb_eq.
  - intros uri expected_hash Hu He; unfold verify.
    rewrite (replace_strip_leading_prefix _ Hu).
    rewrite (replace_strip_leading_prefix _ He).
    apply eqb_eq.
Qed.

Lemma verify_compares_cids_witness :
  verify (lit "ipfs://abc") (lit "abc") = true <->
  strip_leading_prefix (lit "ipfs://abc") = strip_leading_prefix (lit "abc").
Proof.
  apply (proj1 (proj2 verify_compares_cids) (lit "ipfs://abc") (lit "abc"));
    reflexivity.
Defined.

(* ================================================================== *)
(** * The parser of the executable's output *)

Section ParserFacts.

Lemma split_from_cons (k : nat) (s sep : str) :
  exists a rest, split_from k s sep = a :: rest.
Proof.
  revert k; induction s as [|c s IH]; intros k; simpl; [eauto|].
  destruct k as [|k]; [|apply IH].
  destruct (startswith (c :: s) sep); [eauto|].
  destruct (IH 0%nat) as [a [rest ->]]; simpl; eauto.
Qed.

(** A string that contains the separator splits in two parts at least, so
    that the index 1 the source takes is in range. *)
Lemma split_two (s : str) (c : N) (sep : str) :
  contains s (c :: sep) = true ->
  exists a b rest, split s (c :: sep) = a :: b :: rest.
Proof.
  unfold split; induction s as [|d s IH]; intros H; [discriminate|].
  cbn [contains] in H; cbn [split_from].
  destruct (startswith (d :: s) (c :: sep)) eqn:E.
  - destruct (split_from_cons (List.length (c :: sep) - 1) s (c :: sep))
      as [b [rest ->]]; eauto.
  - simpl in H; destruct (IH H) as [a [b [rest ->]]]; simpl; eauto.
Qed.

Lemma item1_split (s sep : str) :
  sep <> [] -> contains s sep = true ->
  exists v, item1 (split s sep) = Ret v.
Proof.
  destruct sep as [|c sep]; [congruence|]; intros _ H.
  destruct (split_two _ _ _ H) as [a [b [rest ->]]]; simpl; eauto.
Qed.

Ltac literal_not_empty := let H := fresh in intros H; vm_compute in H; discriminate H.

Lemma lstrip_suffix (s : str) : exists pre, s = pre ++ lstrip s.
Proof.
  induction s as [|c s [pre IH]]; simpl; [exists []; reflexivity|].
  destruct (isspace c); [|exists []; reflexivity].
  exists (c :: pre); simpl; now f_equal.
Qed.

Lemma rstrip_prefix (s : str) : exists post, s = rstrip s ++ post.
Proof.
  unfold rstrip; destruct (lstrip_suffix (rev s)) as [pre H].
  exists (rev pre).
  rewrite <- rev_app_distr, <- H; symmetry; apply rev_involutive.
Qed.

Lemma strip_infix (s : str) : exists pre post, s = pre ++ strip s ++ post.
Proof.
  unfold strip; destruct (lstrip_suffix s) as [pre H].
  destruct (rstrip_prefix (lstrip s)) as [post H'].
  exists pre, post; now rewrite <- H'.
Qed.

(** The line of the transaction hash contains the separator it is split at. *)
Lemma hash_line_contains (line : str) :
  startswith (strip line) hash_label = true ->
  contains line (lit "Hash:") = true.
Proof.
  intros H; apply startswith_spec in H as [t Ht].
  destruct (strip_infix line) as [pre [post E]].
  rewrite E, Ht; apply contains_app.
  apply contains_spec.
  exists ([226; 8221; 8218; 32])%N, t; reflexivity.
Qed.

Lemma parse_line_total (line : str) (f : cli_fields) :
  exists f', parse_line line f = Ret f'.
Proof.
  unfold parse_line.
  destruct (contains line (lit "Root CID:")) eqn:E1.
  { destruct (item1_split line (sep := lit "Root CID:")) as [v ->];
      [literal_not_empty | exact E1 | simpl; eauto]. }
  destruct (contains line (lit "Piece CID:")) eqn:E2.
  { destruct (item1_split line (sep := lit "Piece CID:")) as [v ->];
      [literal_not_empty | exact E2 | simpl; eauto]. }
  destruct (contains line (lit "Data Set ID:")) eqn:E3.
  { destruct (item1_split line (sep := lit "Data Set ID:")) as [v ->];
      [literal_not_empty | exact E3 | simpl; eauto]. }
  destruct (startswith (strip line) hash_label) eqn:E4.
  { apply hash_line_contains in E4.
    destruct (item1_split line (sep := lit "Hash:")) as [v ->];
      [literal_not_empty | exact E4 | simpl; eauto]. }
  destruct (contains line (lit "IPFS content loaded (")); [|eauto].
  destruct (re_search_loaded line); eauto.
Qed.

(** A line without the label leaves the root CID as it was. *)
Lemma parse_line_keeps_root (line : str) (f f' : cli_fields) :
  contains line (lit "Root CID:") = false ->
  parse_line line f = Ret f' -> root_cid f' = root_cid f.
Proof.
  unfold parse_line; intros ->.
  repeat match goal with
         | |- context [if ?b then _ else _] => destruct b
         | |- context [item1 ?l] => destruct (item1 l); simpl
         | |- context [match re_search_loaded ?l with _ => _ end] =>
             destruct (re_search_loaded l)
         end;
    intros H; inversion H; reflexivity.
Qed.

Lemma parse_lines_total (lines : list str) (f : cli_fields) :
  exists f', parse_lines lines f = Ret f'.
Proof.
  revert f; induction lines as [|line rest IH]; intros f; simpl; [eauto|].
  destruct (parse_line_total line f) as [f' ->]; simpl; apply IH.
Qed.

Lemma parse_lines_keep_root (lines : list str) (f f' : cli_fields) :
  (forall line, In line lines -> contains line (lit "Root CID:") = false) ->
  parse_lines lines f = Ret f' -> root_cid f' = root_cid f.
Proof.
  revert f; induction lines as [|line rest IH]; intros f Hn; simpl.
  - intros H; now inversion H.
  - destruct (parse_line line f) as [f1|e] eqn:E; simpl; [|discriminate].
    intros H; rewrite (IH f1); auto.
    + apply (parse_line_keeps_root line f); auto.
      apply Hn; now left.
    + intros l Hl; apply Hn; now right.
Qed.

(** [_parse_cli_output] never raises. *)
Lemma _parse_cli_output_total (output : str) :
  exists f, _parse_cli_output output = Ret f.
Proof. apply parse_lines_total. Qed.

Lemma _parse_cli_output_no_root (output : str) :
  (forall line,
     In line (splitlines output) -> contains line (lit "Root CID:") = false) ->
  exists f, _parse_cli_output output = Ret f /\ root_cid f = None.
Proof.
  intros Hn; destruct (_parse_cli_output_total output) as [f Hf].
  exists f; split; [exact Hf|].
  apply (parse_lines_keep_root _ _ Hn Hf).
Qed.

End ParserFacts.

(* ================================================================== *)
(** * The upload *)

Section PutFacts.

Variable sys : system.
Variable self : FilecoinPinStorageProvider.

Ltac not_empty :=
  let H := fresh in intros H; vm_compute in H; discriminate H.

Lemma or_else_not_empty (o : option str) (c : N) (d : str) :
  or_else o (c :: d) <> [].
Proof. destruct o as [[|x s]|]; simpl; discriminate. Qed.

Lemma failure_is_failure (p e : str) : e <> [] -> is_failure (failure p e).
Proof. intros H; repeat split; assumption. Qed.

(** What [put] does once the command has returned: it returns a result of
    one of the two shapes, and only prints. *)
Lemma put_result_shape (blob : bytes) (mime : option str)
    (tags : option (list (str * str))) (filename : str)
    (result : CompletedProcess) (w : world) :
  exists r w',
    put_result blob mime tags filename result w = (Ret r, w') /\
    dirs w' = dirs w /\ files w' = files w /\
    ((is_success blob r /\ returncode result = 0%Z /\
      exists fields, _parse_cli_output (stdout result) = Ret fields /\
                     root_cid fields = Some (cid r))
     \/ is_failure r).
Proof.
  unfold put_result.
  destruct (returncode result =? 0)%Z eqn:Ecode.
  - apply Z.eqb_eq in Ecode.
    destruct (_parse_cli_output_total (stdout result)) as [fields Hf].
    unfold bind at 1, lift; rewrite Hf.
    destruct (root_cid fields) as [[|c root]|] eqn:Eroot.
    + eexists _, _; split; [reflexivity|]; repeat split; right;
        apply failure_is_failure; not_empty.
    + eexists _, _; split; [reflexivity|]; repeat split; left.
      split; [repeat split; discriminate|].
      split; [exact Ecode|]; exists fields; split; [reflexivity | exact Eroot].
    + eexists _, _; split; [reflexivity|]; repeat split; right;
        apply failure_is_failure; not_empty.
  - eexists _, _; split; [reflexivity|]; repeat split; right.
    apply failure_is_failure.
    change (lit "filecoin-pin command failed")
      with (102 :: lit "ilecoin-pin command failed")%N.
    apply or_else_not_empty.
Qed.

Lemma put_except_is_failure (e : exn) (w : world) :
  exists r, put_except e w = (Ret r, w) /\ is_failure r.
Proof.
  unfold put_except.
  destruct (is_TimeoutExpired e); eexists; (split; [reflexivity|]);
    apply failure_is_failure; not_empty.
Qed.

(** [put] returns, with a result of one of the two shapes; the shape of a
    success only when every step of the upload went well. *)
Lemma put_shape (blob : bytes) (mime : option str)
    (tags : option (list (str * str))) (idempotency_key : option str)
    (w : world) :
  exists r w',
    put sys self blob mime tags idempotency_key w = (Ret r, w') /\
    ((is_success blob r /\ upload_done sys self blob mime (cid r))
     \/ is_failure r).
Proof.
  unfold put, try_except, bind, mkdtemp.
  destruct (sys_mkdtemp sys _) as [temp_dir|e] eqn:Emk.
  2:{ match goal with |- context [put_except e ?w1] =>
        destruct (put_except_is_failure e w1) as [r [-> Hr]] end; eauto. }
  unfold write_bytes.
  destruct (sys_write_bytes sys _ blob) as [[]|e] eqn:Ewr.
  2:{ match goal with |- context [put_except e ?w1] =>
        destruct (put_except_is_failure e w1) as [r [-> Hr]] end; eauto. }
  unfold try_finally, bind, print, subprocess_run.
  destruct (sys_run sys _ 300) as [result|e] eqn:Erun.
  2:{ cbn [rmtree]. match goal with |- context [put_except e ?w1] =>
        destruct (put_except_is_failure e w1) as [r [-> Hr]] end; eauto. }
  match goal with |- context [put_result ?b ?m ?t ?f ?res ?w1] =>
    destruct (put_result_shape b m t f res w1)
      as (r & w' & -> & _ & _ & Hshape) end.
  cbn [rmtree]; eexists _, _; split; [reflexivity|].
  destruct Hshape as [(Hs & Hcode & fields & Hf & Hroot) | Hfail]; [left | now right].
  split; [exact Hs|].
  exists temp_dir, result, fields; repeat split; auto.
  apply Hs.
Qed.

Lemma exists_dir_rmtree (d : str) (w : world) :
  exists_dir d (snd (rmtree d w)) = false.
Proof.
  unfold exists_dir, rmtree; cbn [snd dirs].
  induction (dirs w) as [|x l IH]; [reflexivity|].
  cbn [filter]; destruct (PyStr.eqb x d) eqn:E; cbn [negb]; [exact IH|].
  cbn [existsb]; rewrite IH, orb_false_r.
  destruct (PyStr.eqb d x) eqn:E'; [|reflexivity].
  apply eqb_eq in E'; subst; now rewrite eqb_refl in E.
Qed.

(** When the payload file was written, the temporary directory is gone
    when [put] returns, whatever the command did. *)
Lemma put_removes_temp_dir (blob : bytes) (mime : option str)
    (tags : option (list (str * str))) (idempotency_key : option str)
    (w : world) (temp_dir : str) :
  sys_mkdtemp sys (lit "chaoschain_filecoin_pin_") = Ret temp_dir ->
  sys_write_bytes sys (temp_dir ++ lit "/" ++ _filename_for_mime mime) blob
    = Ret tt ->
  exists_dir temp_dir (snd (put sys self blob mime tags idempotency_key w))
    = false.
Proof.
  intros Emk Ewr.
  unfold put, try_except, bind, mkdtemp; rewrite Emk.
  unfold write_bytes; rewrite Ewr.
  unfold try_finally, bind, print, subprocess_run.
  destruct (sys_run sys _ 300) as [result|e] eqn:Erun.
  - match goal with |- context [put_result ?b ?m ?t ?f ?res ?w1] =>
      destruct (put_result_shape b m t f res w1) as (r & w' & -> & _) end.
    apply (exists_dir_rmtree temp_dir w').
  - match goal with |- context [rmtree temp_dir ?w1] =>
      destruct (put_except_is_failure e (snd (rmtree temp_dir w1)))
        as [r [Hr _]]; pose proof (exists_dir_rmtree temp_dir w1) as Hd end.
    cbn [rmtree snd] in Hr, Hd |- *; rewrite Hr; exact Hd.
Qed.

(** When writing the payload file raises, the directory stays behind. *)
Lemma put_keeps_temp_dir (blob : bytes) (mime : option str)
    (tags : option (list (str * str))) (idempotency_key : option str)
    (w : world) (temp_dir : str) (e : exn) :
  sys_mkdtemp sys (lit "chaoschain_filecoin_pin_") = Ret temp_dir ->
  sys_write_bytes sys (temp_dir ++ lit "/" ++ _filename_for_mime mime) blob
    = Raise e ->
  exists_dir temp_dir (snd (put sys self blob mime tags idempotency_key w))
    = true.
Proof.
  intros Emk Ewr.
  unfold put, try_except, bind, mkdtemp; rewrite Emk.
  unfold write_bytes; rewrite Ewr.
  match goal with |- context [put_except e ?w1] =>
    destruct (put_except_is_failure e w1) as [r [-> _]] end.
  unfold exists_dir; cbn [snd emit dirs existsb].
  now rewrite eqb_refl.
Qed.

End PutFacts.

(** C1: [put] returns a result in one of two states: [success] is true
    exactly when [cid] is not empty, which is exactly when [error] is
    empty. *)
Theorem put_two_states (sys : system) (self : FilecoinPinStorageProvider)
    (blob : bytes) (mime : option str) (tags : option (list (str * str)))
    (idempotency_key : option str) (w : world) :
  exists r w',
    put sys self blob mime tags idempotency_key w = (Ret r, w') /\
    (success r = true <-> cid r <> []) /\
    (cid r <> [] <-> error r = []).
Proof.
  destruct (put_shape sys self blob mime tags idempotency_key w)
    as (r & w' & Hput & Hshape).
  exists r, w'; split; [exact Hput|].
  destruct Hshape as [[(Hs & Hc & He & _) _] | (Hs & Hc & He & _)].
  - repeat split; auto.
  - rewrite Hs, Hc; repeat split; congruence.
Qed.

(** C2: [put] never raises: for every answer of the operating system and
    of the executable it returns a result, and the result has
    [success = false] unless the staging succeeded, the command exited
    with code 0 and its output gave a non-empty root CID. *)
Theorem put_never_raises (sys : system) (self : FilecoinPinStorageProvider)
    (blob : bytes) (mime : option str) (tags : option (list (str * str)))
    (idempotency_key : option str) (w : world) :
  exists r w',
    put sys self blob mime tags idempotency_key w = (Ret r, w') /\
    (success r = false \/ upload_done sys self blob mime (cid r)).
Proof.
  destruct (put_shape sys self blob mime tags idempotency_key w)
    as (r & w' & Hput & Hshape).
  exists r, w'; split; [exact Hput|].
  destruct Hshape as [[_ Hdone] | (Hs & _)]; [now right | now left].
Qed.

(** C4: the defect at a concrete input.  The directory is created, writing
    the payload file raises, [put] returns a failure, and the directory it
    created still exists. *)
Theorem put_leaves_temp_dir_when_write_fails :
  sys_mkdtemp sys_disk_full (lit "chaoschain_filecoin_pin_") = Ret sample_dir /\
  exists_dir sample_dir world0 = false /\
  exists r w',
    put sys_disk_full sample_self [Byte.x68; Byte.x69] None None None world0
      = (Ret r, w') /\
    success r = false /\
    error r = lit "Storage error: [Errno 28] No space left on device" /\
    exists_dir sample_dir w' = true.
Proof.
  split; [reflexivity|]; split; [reflexivity|].
  eexists _, _; split; [vm_compute; reflexivity|].
  repeat split.
Qed.

(** C9, as stated, fails: a failure result carries size 0, not the length
    of the payload. *)
Lemma put_failure_size :
  exists r w',
    put (sys_running exit_error) sample_self [Byte.x68; Byte.x69]
      None None None world0 = (Ret r, w') /\
    success r = false /\ size r = 0%Z /\ len [Byte.x68; Byte.x69] = 2%Z.
Proof.
  eexists _, _; split; [vm_compute; reflexivity|].
  repeat split.
Qed.

(** C9, amended: the result of [put] carries the byte length of the payload
    as its size when it is a success, and size 0 when it is a failure. *)
Theorem put_size (sys : system) (self : FilecoinPinStorageProvider)
    (blob : bytes) (mime : option str) (tags : option (list (str * str)))
    (idempotency_key : option str) (w : world) :
  exists r w',
    put sys self blob mime tags idempotency_key w = (Ret r, w') /\
    size r = (if success r then len blob else 0%Z).
Proof.
  destruct (put_shape sys self blob mime tags idempotency_key w)
    as (r & w' & Hput & Hshape).
  exists r, w'; split; [exact Hput|].
  destruct Hshape as [[(Hs & _ & _ & _ & _ & Hsize) _] | (Hs & _ & _ & _ & Hsize)];
    now rewrite Hs.
Qed.

(** C10: the idempotency key has no influence: with any two keys [put]
    returns the same result and leaves the same world, whose trace holds
    the file written and the command run. *)
Theorem put_ignores_idempotency_key (sys : system)
    (self : FilecoinPinStorageProvider) (blob : bytes) (mime : option str)
    (tags : option (list (str * str))) (key1 key2 : option str) (w : world) :
  put sys self blob mime tags key1 w = put sys self blob mime tags key2 w.
Proof. unfold put; reflexivity. Qed.

(** C5: when the command exits with code 0 and no line of its standard
    output contains the label of the root CID, [put] returns a failure:
    [success] is false, [cid] is empty and [error] is the dedicated,
    non-empty message. *)
Theorem put_zero_exit_without_root_cid (sys : system)
    (self : FilecoinPinStorageProvider) (blob : bytes) (mime : option str)
    (tags : option (list (str * str))) (idempotency_key : option str)
    (w : world) (temp_dir : str) (result : CompletedProcess) :
  sys_mkdtemp sys (lit "chaoschain_filecoin_pin_") = Ret temp_dir ->
  sys_write_bytes sys (temp_dir ++ lit "/" ++ _filename_for_mime mime) blob
    = Ret tt ->
  sys_run sys
    (_build_command self (temp_dir ++ lit "/" ++ _filename_for_mime mime)) 300
    = Ret result ->
  returncode result = 0%Z ->
  (forall line,
     In line (splitlines (stdout result)) ->
     contains line (lit "Root CID:") = false) ->
  exists r w',
    put sys self blob mime tags idempotency_key w = (Ret r, w') /\
    success r = false /\ cid r = [] /\
    error r = lit "filecoin-pin completed without returning a Root CID" /\
    error r <> [].
Proof.
  intros Emk Ewr Erun Ecode Hlines.
  destruct (_parse_cli_output_no_root _ Hlines) as (fields & Hparse & Hroot).
  unfold put, try_except, bind, mkdtemp; rewrite Emk.
  unfold write_bytes; rewrite Ewr.
  unfold try_finally, bind, print, subprocess_run; rewrite Erun.
  unfold put_result; rewrite Ecode; cbn [Z.eqb].
  unfold bind, lift; rewrite Hparse, Hroot.
  eexists _, _; split; [reflexivity|].
  repeat split; intros H; vm_compute in H; discriminate H.
Qed.

Lemma put_zero_exit_without_root_cid_witness :
  exists r w',
    put (sys_running (exit_ok (lit "upload complete"))) sample_self
      [Byte.x68; Byte.x69] None None None world0 = (Ret r, w') /\
    success r = false /\ cid r = [] /\
    error r = lit "filecoin-pin completed without returning a Root CID" /\
    error r <> [].
Proof.
  apply (@put_zero_exit_without_root_cid
           (sys_running (exit_ok (lit "upload complete"))) sample_self
           [Byte.x68; Byte.x69] None None None world0 sample_dir
           {| returncode := 0; stdout := lit "upload complete"; stderr := [] |});
    try reflexivity.
  intros line [<- | []]; reflexivity.
Defined.

(* ================================================================== *)
(** * The retrieval *)

Section GetFacts.

Variable sys : system.

Lemma requests_of_app (a b : list event) :
  requests_of (a ++ b) = requests_of a ++ requests_of b.
Proof.
  induction a as [|e a IH]; [reflexivity|].
  destruct e; simpl; now rewrite IH.
Qed.

Lemma gateway_fails_dec (url : str) :
  gateway_fails sys url \/
  exists response,
    sys_requests_get sys url 30 = Ret response /\ status_code response = 200%Z.
Proof.
  unfold gateway_fails.
  destruct (sys_requests_get sys url 30) as [response|e]; [|now left].
  destruct (Z.eq_dec (status_code response) 200); [right; eauto | now left].
Qed.

(** A round of the loop on a gateway that fails: one request, no value. *)
Lemma get_attempt_fails (url : str) (w : world) :
  gateway_fails sys url ->
  exists w',
    get_attempt sys url w = (Ret None, w') /\
    requests_of (trace w') = requests_of (trace w) ++ [url].
Proof.
  unfold gateway_fails, get_attempt, try_except, bind, print, requests_get.
  destruct (sys_requests_get sys url 30) as [response|e].
  - intros H; apply Z.eqb_neq in H; rewrite H.
    eexists; split; [reflexivity|].
    cbn [emit trace]; rewrite !requests_of_app; cbn [requests_of].
    now rewrite !app_nil_r.
  - intros _; eexists; split; [reflexivity|].
    cbn [emit trace]; rewrite !requests_of_app; cbn [requests_of].
    now rewrite !app_nil_r.
Qed.

(** A round of the loop on a gateway that answers 200: one request, and
    the body with the metadata of that answer. *)
Lemma get_attempt_succeeds (url : str) (response : Response) (w : world) :
  sys_requests_get sys url 30 = Ret response ->
  status_code response = 200%Z ->
  exists w',
    get_attempt sys url w
    = (Ret (Some (content response,
                  [(lit "content-type",
                    opt_str (headers response (lit "Content-Type")));
                   (lit "content-length",
                    opt_str (headers response (lit "Content-Length")));
                   (lit "gateway", PyStr url)])), w') /\
    requests_of (trace w') = requests_of (trace w) ++ [url].
Proof.
  intros Hget Hcode.
  unfold get_attempt, try_except, bind, print, requests_get.
  rewrite Hget, Hcode; cbn [Z.eqb Pos.eqb].
  eexists; split; [reflexivity|].
  cbn [emit trace]; rewrite !requests_of_app; cbn [requests_of].
  now rewrite !app_nil_r.
Qed.

Lemma get_loop_first_success (pre : list str) (url : str) (post : list str)
    (response : Response) (w : world) :
  Forall (gateway_fails sys) pre ->
  sys_requests_get sys url 30 = Ret response ->
  status_code response = 200%Z ->
  exists w',
    get_loop sys (pre ++ url :: post) w
    = (Ret (content response,
            [(lit "content-type",
              opt_str (headers response (lit "Content-Type")));
             (lit "content-length",
              opt_str (headers response (lit "Content-Length")));
             (lit "gateway", PyStr url)]), w') /\
    requests_of (trace w') = requests_of (trace w) ++ pre ++ [url].
Proof.
  intros Hpre Hget Hcode; revert w.
  induction Hpre as [|u pre Hu Hpre IH]; intros w.
  - destruct (@get_attempt_succeeds url response w Hget Hcode) as (w' & Ha & Ht).
    exists w'; split; [|exact Ht].
    cbn [app get_loop]; unfold bind; rewrite Ha; reflexivity.
  - destruct (@get_attempt_fails u w Hu) as (w1 & Ha & Ht).
    destruct (IH w1) as (w' & Hl & Ht').
    exists w'; split.
    + cbn [app get_loop]; unfold bind at 1; rewrite Ha; exact Hl.
    + rewrite Ht', Ht, <- app_assoc; reflexivity.
Qed.

Lemma get_loop_all_fail (urls : list str) (w : world) :
  Forall (gateway_fails sys) urls ->
  exists w',
    get_loop sys urls w
    = (Raise (Exception (lit "Failed to retrieve from any IPFS gateway")), w') /\
    requests_of (trace w') = requests_of (trace w) ++ urls.
Proof.
  intros H; revert w; induction H as [|u urls Hu Hall IH]; intros w.
  - exists w; split; [reflexivity | now rewrite app_nil_r].
  - destruct (@get_attempt_fails u w Hu) as (w1 & Ha & Ht).
    destruct (IH w1) as (w' & Hl & Ht').
    exists w'; split.
    + cbn [get_loop]; unfold bind at 1; rewrite Ha; exact Hl.
    + rewrite Ht', Ht, <- app_assoc; reflexivity.
Qed.

(** Either every gateway of a list fails, or one is the first to answer. *)
Lemma first_success_or_none (urls : list str) :
  Forall (gateway_fails sys) urls \/
  exists pre url post response,
    urls = pre ++ url :: post /\ Forall (gateway_fails sys) pre /\
    sys_requests_get sys url 30 = Ret response /\
    status_code response = 200%Z.
Proof.
  induction urls as [|u urls IH]; [left; constructor|].
  destruct (gateway_fails_dec u) as [Hu | (response & Hget & Hcode)].
  - destruct IH as [Hall | (pre & url & post & response & -> & Hpre & Hget & Hcode)].
    + left; now constructor.
    + right; exists (u :: pre), url, post, response; repeat split; auto.
  - right; exists [], u, urls, response; repeat split; auto.
Qed.

(** Without the HTTP client [get] raises at once, and requests nothing. *)
Lemma get_without_requests (uri : str) (w : world) (e : exn) :
  sys_import_requests sys = Raise e ->
  get sys uri w
  = (Raise (Exception (lit "Error retrieving from IPFS: " ++ exn_str e)), w).
Proof.
  intros H; unfold get, try_except, bind, import_requests, lift.
  now rewrite H.
Qed.

End GetFacts.

(** C3: with the HTTP client imported, when a gateway is the first of the
    list to answer 200, [get] requests the gateways before it and then this
    one, in the order of the list, returns the body and the metadata
    (content type, content length, the gateway) of that answer, and
    requests no gateway after it. *)
Theorem get_first_success (sys : system) (uri : str) (w : world)
    (pre : list str) (url : str) (post : list str) (response : Response) :
  sys_import_requests sys = Ret tt ->
  gateways (replace uri (lit "ipfs://") []) = pre ++ url :: post ->
  Forall (gateway_fails sys) pre ->
  sys_requests_get sys url 30 = Ret response ->
  status_code response = 200%Z ->
  exists w',
    get sys uri w
    = (Ret (content response,
            [(lit "content-type",
              opt_str (headers response (lit "Content-Type")));
             (lit "content-length",
              opt_str (headers response (lit "Content-Length")));
             (lit "gateway", PyStr url)]), w') /\
    requests_of (trace w') = requests_of (trace w) ++ pre ++ [url].
Proof.
  intros Himport Hlist Hpre Hget Hcode.
  destruct (@get_loop_first_success sys pre url post response w Hpre Hget Hcode)
    as (w' & Hloop & Ht).
  exists w'; split; [|exact Ht].
  unfold get, try_except, bind, import_requests, lift.
  rewrite Himport, Hlist, Hloop; reflexivity.
Qed.

Lemma get_first_success_witness :
  exists w',
    get sys_second_gateway (lit "ipfs://abc") world0
    = (Ret (content sample_response,
            [(lit "content-type",
              opt_str (headers sample_response (lit "Content-Type")));
             (lit "content-length",
              opt_str (headers sample_response (lit "Content-Length")));
             (lit "gateway", PyStr (lit "https://gateway.pinata.cloud/ipfs/abc"))]),
       w') /\
    requests_of (trace w')
    = requests_of (trace world0)
      ++ [lit "https://ipfs.io/ipfs/abc"]
      ++ [lit "https://gateway.pinata.cloud/ipfs/abc"].
Proof.
  apply (@get_first_success sys_second_gateway (lit "ipfs://abc") world0
           [lit "https://ipfs.io/ipfs/abc"]
           (lit "https://gateway.pinata.cloud/ipfs/abc")
           [lit "https://cloudflare-ipfs.com/ipfs/abc";
            lit "https://dweb.link/ipfs/abc"]
           sample_response).
  - reflexivity.
  - reflexivity.
  - constructor; [exact I | constructor].
  - reflexivity.
  - reflexivity.
Defined.

(** C6: with the HTTP client imported, [get] raises exactly when every
    gateway of the list fails, and then it raises the aggregate error after
    one request to each gateway, in order; it returns no value. *)
Theorem get_fails_iff_all_gateways_fail (sys : system) (uri : str) (w : world) :
  sys_import_requests sys = Ret tt ->
  ((exists e w', get sys uri w = (Raise e, w')) <->
   Forall (gateway_fails sys) (gateways (replace uri (lit "ipfs://") []))) /\
  (Forall (gateway_fails sys) (gateways (replace uri (lit "ipfs://") [])) ->
   exists w',
     get sys uri w
     = (Raise (Exception (lit "Error retrieving from IPFS: Failed to retrieve from any IPFS gateway")),
        w') /\
     requests_of (trace w')
     = requests_of (trace w) ++ gateways (replace uri (lit "ipfs://") [])).
Proof.
  intros Himport.
  assert (Hall : Forall (gateway_fails sys) (gateways (replace uri (lit "ipfs://") [])) ->
                 exists w',
                   get sys uri w
                   = (Raise (Exception (lit "Error retrieving from IPFS: Failed to retrieve from any IPFS gateway")),
                      w') /\
                   requests_of (trace w')
                   = requests_of (trace w) ++ gateways (replace uri (lit "ipfs://") [])).
  { intros H; destruct (@get_loop_all_fail sys _ w H) as (w' & Hloop & Ht).
    exists w'; split; [|exact Ht].
    unfold get, try_except, bind, import_requests, lift.
    rewrite Himport, Hloop; reflexivity. }
  split; [split|exact Hall].
  - intros (e & w' & Hraise).
    destruct (first_success_or_none sys (gateways (replace uri (lit "ipfs://") [])))
      as [H | (pre & url & post & response & Hlist & Hpre & Hget & Hcode)];
      [exact H|].
    destruct (@get_loop_first_success sys pre url post response w Hpre Hget Hcode)
      as (w1 & Hret & _).
    unfold get, try_except, bind, import_requests, lift in Hraise.
    rewrite Himport, Hlist, Hret in Hraise; discriminate Hraise.
  - intros H; destruct (Hall H) as (w' & Hraise & _); eauto.
Qed.

Lemma get_fails_iff_all_gateways_fail_witness :
  exists w',
    get sys_offline (lit "ipfs://abc") world0
    = (Raise (Exception (lit "Error retrieving from IPFS: Failed to retrieve from any IPFS gateway")),
       w') /\
    requests_of (trace w')
    = requests_of (trace world0) ++ gateways (replace (lit "ipfs://abc") (lit "ipfs://") []).
Proof.
  apply (proj2 (@get_fails_iff_all_gateways_fail sys_offline (lit "ipfs://abc")
                  world0 eq_refl)).
  repeat constructor.
Defined.

(* ================================================================== *)
(** * The JSON upload *)

Section UploadJsonFacts.

Lemma join_cons (sep t : str) (ts : list str) :
  join sep (t :: ts) = t ++ flat_map (fun x => sep ++ x) ts.
Proof.
  revert t; induction ts as [|u ts IH]; intros t.
  - simpl; now rewrite app_nil_r.
  - change (join sep (t :: u :: ts)) with (t ++ sep ++ join sep (u :: ts)).
    rewrite IH; simpl; now rewrite <- app_assoc.
Qed.

(** The items of a dictionary are written in the order of the dictionary,
    each after the separator but the first. *)
Lemma dumps_dict_in_order (kv : pyobj * pyobj) (items : list (pyobj * pyobj)) :
  Json.dumps (PyDict (kv :: items)) 2
  = (texts <~ item_texts 2 (kv :: items) ;;
     Ret (lit "{" ++ Json.newline_indent 2 1
          ++ join (lit "," ++ Json.newline_indent 2 1) texts
          ++ Json.newline_indent 2 0 ++ lit "}")).
Proof.
  unfold Json.dumps; cbn [Json.iterencode].
  match goal with |- context [?f false items] => set (F := f) end.
  assert (Hrest : forall l,
             F false l
             = (texts <~ item_texts 2 l ;;
                Ret (flat_map
                       (fun x => (lit "," ++ Json.newline_indent 2 1) ++ x)
                       texts))).
  { induction l as [|[k v] l IH]; [reflexivity|].
    cbn [F item_texts]; fold F; rewrite IH.
    unfold item_text; cbn [fst snd].
    destruct (Json.key_text k) as [key|e]; [|reflexivity]; cbn [obind].
    destruct (Json.iterencode 2 1 v) as [chunk|e]; [|reflexivity]; cbn [obind].
    destruct (item_texts 2 l) as [texts|e]; [|reflexivity]; cbn [obind flat_map].
    now rewrite <- !app_assoc. }
  destruct kv as [k v].
  rewrite Hrest; cbn [item_texts].
  unfold item_text; cbn [fst snd].
  destruct (Json.key_text k) as [key|e]; [|reflexivity]; cbn [obind].
  destruct (Json.iterencode 2 1 v) as [chunk|e]; [|reflexivity]; cbn [obind].
  destruct (item_texts 2 items) as [texts|e]; [|reflexivity]; cbn [obind].
  rewrite join_cons; cbn [app]; now rewrite <- !app_assoc.
Qed.

End UploadJsonFacts.

(** C8, as stated, fails: the keys are not put in a stable order.  Two
    dictionaries with the same key-value content, filled in a different
    order, are serialized to different bytes. *)
Lemma upload_json_key_order :
  Permutation items_ab items_ba /\
  json_payload (PyDict items_ab) <> json_payload (PyDict items_ba).
Proof.
  split; [apply perm_swap|].
  intros H; vm_compute in H; discriminate H.
Qed.

(** C8, amended: [upload_json] never raises.  It serializes the dictionary
    with its items in the order of the dictionary (each item written as
    key, colon, value, the items joined by the separator), stores the bytes
    with [put] under the MIME type application/json, and returns the CID of
    the result when it is a success and [None] otherwise, also when the
    serialization raises. *)
Theorem upload_json_projects_put :
  (forall (sys : system) (self : FilecoinPinStorageProvider) (data : pyobj)
          (filename : option str) (w : world),
     exists v w',
       upload_json sys self data filename w = (Ret v, w') /\
       match json_payload data with
       | Raise _ => v = None
       | Ret payload =>
           exists r wp,
             put sys self payload (Some (lit "application/json"))
               (Some [(lit "filename", or_else filename (lit "data.json"))])
               None w = (Ret r, wp) /\
             v = (if success r then Some (cid r) else None)
       end) /\
  (forall (kv : pyobj * pyobj) (items : list (pyobj * pyobj)),
     json_payload (PyDict (kv :: items))
     = (texts <~ item_texts 2 (kv :: items) ;;
        Utf8.encode
          (lit "{" ++ Json.newline_indent 2 1
           ++ join (lit "," ++ Json.newline_indent 2 1) texts
           ++ Json.newline_indent 2 0 ++ lit "}"))).
Proof.
  split.
  - intros sys self data filename w.
    unfold upload_json, try_except, bind, lift.
    destruct (json_payload data) as [payload|e].
    + destruct (put_shape sys self payload (Some (lit "application/json"))
                  (Some [(lit "filename", or_else filename (lit "data.json"))])
                  None w) as (r & wp & Hput & _).
      rewrite Hput.
      destruct (success r) eqn:Hs.
      * eexists _, _; split; [reflexivity|].
        exists r, wp; rewrite Hs; split; reflexivity.
      * eexists _, _; split; [reflexivity|].
        exists r, wp; rewrite Hs; split; reflexivity.
    + eexists _, _; split; reflexivity.
  - intros kv items; unfold json_payload.
    rewrite dumps_dict_in_order.
    destruct (item_texts 2 (kv :: items)); reflexivity.
Qed.

(* ================================================================== *)
(** * Further properties of the provider *)

(** X1: when the staging succeeds, the command exits with code 0 and its
    output gives a non-empty root CID, [put] returns a success whose [cid]
    is that value, whose [uri] is [ipfs://] followed by it, whose view URL
    is built from it and the file name, and whose size is the length of
    the payload; the temporary directory is gone. *)
Theorem put_success (sys : system) (self : FilecoinPinStorageProvider)
    (blob : bytes) (mime : option str) (tags : option (list (str * str)))
    (idempotency_key : option str) (w : world) (temp_dir : str)
    (result : CompletedProcess) (fields : cli_fields) (c : N) (root : str) :
  sys_mkdtemp sys (lit "chaoschain_filecoin_pin_") = Ret temp_dir ->
  sys_write_bytes sys (temp_dir ++ lit "/" ++ _filename_for_mime mime) blob
    = Ret tt ->
  sys_run sys
    (_build_command self (temp_dir ++ lit "/" ++ _filename_for_mime mime)) 300
    = Ret result ->
  returncode result = 0%Z ->
  _parse_cli_output (stdout result) = Ret fields ->
  root_cid fields = Some (c :: root) ->
  exists r w',
    put sys self blob mime tags idempotency_key w = (Ret r, w') /\
    success r = true /\ cid r = c :: root /\ hash r = c :: root /\
    uri r = lit "ipfs://" ++ c :: root /\
    view_url r
    = lit "https://" ++ (c :: root) ++ lit ".ipfs.dweb.link/"
      ++ _filename_for_mime mime /\
    size r = len blob /\ error r = [] /\
    exists_dir temp_dir w' = false.
Proof.
  intros Emk Ewr Erun Ecode Hparse Hroot.
  pose proof (@put_removes_temp_dir sys self blob mime tags idempotency_key
                w temp_dir Emk Ewr) as Hgone.
  revert Hgone.
  unfold put, try_except, bind, mkdtemp; rewrite Emk.
  unfold write_bytes; rewrite Ewr.
  unfold try_finally, bind, print, subprocess_run; rewrite Erun.
  unfold put_result; rewrite Ecode; cbn [Z.eqb].
  unfold bind, lift; rewrite Hparse, Hroot.
  cbn [rmtree snd]; intros Hgone.
  eexists _, _; split; [reflexivity|].
  repeat split; exact Hgone.
Qed.

Lemma put_success_witness :
  exists r w',
    put (sys_running (exit_ok (lit "Root CID: bafyabc"))) sample_self
      [Byte.x68; Byte.x69] (Some (lit "application/json")) None None world0
    = (Ret r, w') /\
    success r = true /\ cid r = lit "bafyabc" /\ hash r = lit "bafyabc" /\
    uri r = lit "ipfs://" ++ lit "bafyabc" /\
    view_url r
    = lit "https://" ++ lit "bafyabc" ++ lit ".ipfs.dweb.link/"
      ++ _filename_for_mime (Some (lit "application/json")) /\
    size r = len [Byte.x68; Byte.x69] /\ error r = [] /\
    exists_dir sample_dir w' = false.
Proof.
  apply (@put_success
           (sys_running (exit_ok (lit "Root CID: bafyabc"))) sample_self
           [Byte.x68; Byte.x69] (Some (lit "application/json")) None None
           world0 sample_dir
           {| returncode := 0; stdout := lit "Root CID: bafyabc"; stderr := [] |}
           {| root_cid := Some (lit "bafyabc"); piece_cid := None;
              data_set_id := None; transaction_hash := None;
              file_size_display := None |}
           98%N (lit "afyabc"));
    reflexivity.
Defined.

(** X2: when the command runs into its time limit, [put] returns the
    failure with the message of the timeout, and the temporary directory
    is gone. *)
Theorem put_timeout (sys : system) (self : FilecoinPinStorageProvider)
    (blob : bytes) (mime : option str) (tags : option (list (str * str)))
    (idempotency_key : option str) (w : world) (temp_dir : str) (e : exn) :
  sys_mkdtemp sys (lit "chaoschain_filecoin_pin_") = Ret temp_dir ->
  sys_write_bytes sys (temp_dir ++ lit "/" ++ _filename_for_mime mime) blob
    = Ret tt ->
  sys_run sys
    (_build_command self (temp_dir ++ lit "/" ++ _filename_for_mime mime)) 300
    = Raise e ->
  is_TimeoutExpired e = true ->
  exists w',
    put sys self blob mime tags idempotency_key w
    = (Ret (failure (lit "filecoin-pin")
              (lit "filecoin-pin command timed out after 5 minutes")), w') /\
    exists_dir temp_dir w' = false.
Proof.
  intros Emk Ewr Erun Etimeout.
  pose proof (@put_removes_temp_dir sys self blob mime tags idempotency_key
                w temp_dir Emk Ewr) as Hgone.
  revert Hgone.
  unfold put, try_except, bind, mkdtemp; rewrite Emk.
  unfold write_bytes; rewrite Ewr.
  unfold try_finally, bind, print, subprocess_run; rewrite Erun.
  cbn [rmtree]; unfold put_except; rewrite Etimeout.
  cbn [ret snd]; intros Hgone.
  eexists; split; [reflexivity | exact Hgone].
Qed.

Lemma put_timeout_witness :
  exists w',
    put (sys_running (Raise (TimeoutExpired (lit "timed out after 300 seconds"))))
      sample_self [Byte.x68; Byte.x69] None None None world0
    = (Ret (failure (lit "filecoin-pin")
              (lit "filecoin-pin command timed out after 5 minutes")), w') /\
    exists_dir sample_dir w' = false.
Proof.
  apply (@put_timeout
           (sys_running (Raise (TimeoutExpired (lit "timed out after 300 seconds"))))
           sample_self [Byte.x68; Byte.x69] None None None world0 sample_dir
           (TimeoutExpired (lit "timed out after 300 seconds")));
    reflexivity.
Defined.

(** [delete] returns false for every URI, and calls neither the
    executable nor a gateway: all it does is print. *)
Theorem delete_unsupported (uri : str) (w : world) :
  exists text, delete uri w = (Ret false, emit (Print text) w).
Proof. eexists; unfold delete, bind, print, ret; reflexivity. Qed.

(** X3: [_parse_cli_output] returns for every output, every field being
    optional: it raises on none, and the root CID is missing when no line
    has its label. *)
Theorem _parse_cli_output_defensive (output : str) :
  exists fields,
    _parse_cli_output output = Ret fields /\
    (existsb (fun line => contains line (lit "Root CID:")) (splitlines output)
     = false -> root_cid fields = None).
Proof.
  destruct (_parse_cli_output_total output) as [fields Hf].
  exists fields; split; [exact Hf|].
  intros Hnone.
  change None with (root_cid {| root_cid := None; piece_cid := None;
    data_set_id := None; transaction_hash := None;
    file_size_display := None |}).
  apply (@parse_lines_keep_root (splitlines output)); [|exact Hf].
  intros line Hin.
  destruct (contains line (lit "Root CID:")) eqn:E; [|reflexivity].
  assert (existsb (fun line => contains line (lit "Root CID:"))
            (splitlines output) = true) as Habs
    by (apply existsb_exists; eauto).
  congruence.
Qed.

(* ================================================================== *)
(** * Identifiers with and without the scheme *)

Section SchemeFacts.

Lemma replace_prefixed (u : str) :
  replace (lit "ipfs://" ++ u) (lit "ipfs://") []
  = replace u (lit "ipfs://") [].
Proof.
  unfold replace; change (lit "ipfs://") with (105 :: lit "pfs://")%N.
  now rewrite replace_from_occurrence.
Qed.

Lemma eqb_sym (a b : str) : PyStr.eqb a b = PyStr.eqb b a.
Proof.
  destruct (PyStr.eqb a b) eqn:E.
  - apply eqb_eq in E; subst; symmetry; apply eqb_refl.
  - destruct (PyStr.eqb b a) eqn:E'; [|reflexivity].
    apply eqb_eq in E'; subst; now rewrite eqb_refl in E.
Qed.

End SchemeFacts.

(** X4: [verify] is an equivalence on strings (reflexive, symmetric,
    transitive), and putting the scheme [ipfs://] in front of either
    argument never changes its answer. *)
Theorem verify_equivalence :
  (forall u, verify u u = true) /\
  (forall u h, verify u h = verify h u) /\
  (forall a b c, verify a b = true -> verify b c = true -> verify a c = true) /\
  (forall u h, verify (lit "ipfs://" ++ u) h = verify u h) /\
  (forall u h, verify u (lit "ipfs://" ++ h) = verify u h).
Proof.
  unfold verify; split; [|split; [|split; [|split]]].
  - intros u; apply eqb_refl.
  - intros u h; apply eqb_sym.
  - intros a b c Hab Hbc; apply eqb_eq in Hab, Hbc; apply eqb_eq; congruence.
  - intros u h; now rewrite replace_prefixed.
  - intros u h; now rewrite replace_prefixed.
Qed.

(** X5: [get] asks the same gateways for the same paths, and gives the same
    outcome, whether the identifier comes with the scheme [ipfs://] or
    bare. *)
Theorem get_accepts_bare_cid (sys : system) (u : str) (w : world) :
  get sys (lit "ipfs://" ++ u) w = get sys u w.
Proof. unfold get; now rewrite replace_prefixed. Qed.

(** X6: what a successful [put] returns fits [verify] and [get]: [verify]
    accepts the URI of the result against its CID and against its hash,
    and [get] on the URI is [get] on the CID. *)
Theorem put_result_verifies (sys : system) (self : FilecoinPinStorageProvider)
    (blob : bytes) (mime : option str) (tags : option (list (str * str)))
    (idempotency_key : option str) (w w' : world) (r : StorageResult) :
  put sys self blob mime tags idempotency_key w = (Ret r, w') ->
  success r = true ->
  verify (uri r) (cid r) = true /\ verify (uri r) (hash r) = true /\
  (forall sys' w1, get sys' (uri r) w1 = get sys' (cid r) w1).
Proof.
  intros Hput Hs.
  destruct (put_shape sys self blob mime tags idempotency_key w)
    as (r0 & w0 & Hput0 & Hshape).
  rewrite Hput in Hput0; injection Hput0 as <- <-.
  destruct Hshape as [[(_ & _ & _ & Huri & Hhash & _) _] | (Hf & _)];
    [|congruence].
  rewrite Hhash, Huri; unfold verify; rewrite replace_prefixed, eqb_refl.
  repeat split; intros sys' w1; unfold get; now rewrite replace_prefixed.
Qed.

Lemma put_result_verifies_witness :
  verify (lit "ipfs://bafyabc") (lit "bafyabc") = true /\
  verify (lit "ipfs://bafyabc") (lit "bafyabc") = true /\
  (forall sys' w1,
     get sys' (lit "ipfs://bafyabc") w1 = get sys' (lit "bafyabc") w1).
Proof.
  apply (@put_result_verifies
           (sys_running (exit_ok (lit "Root CID: bafyabc"))) sample_self
           [Byte.x68; Byte.x69] None None None world0
           (snd (put (sys_running (exit_ok (lit "Root CID: bafyabc")))
                   sample_self [Byte.x68; Byte.x69] None None None world0))
           {| success := true; uri := lit "ipfs://bafyabc";
              hash := lit "bafyabc"; provider := lit "filecoin-pin";
              cid := lit "bafyabc";
              view_url := lit "https://bafyabc.ipfs.dweb.link/chaoschain_payload.bin";
              size := 2;
              metadata :=
                [(lit "piece_cid", PyNone); (lit "data_set_id", PyNone);
                 (lit "transaction_hash", PyNone);
                 (lit "file_size_display", PyNone);
                 (lit "mime_type", PyNone); (lit "tags", PyDict []);
                 (lit "filecoin_pin", PyBool true);
                 (lit "payload_filename", PyStr (lit "chaoschain_payload.bin"));
                 (lit "dweb_gateway_url",
                  PyStr (lit "https://bafyabc.ipfs.dweb.link/chaoschain_payload.bin"))];
              error := [] |});
    reflexivity.
Defined.

(* ================================================================== *)
(** * What the operations do to the world *)

Section Effects.

Variable sys : system.

Lemma runs_of_app (a b : list event) :
  runs_of (a ++ b) = runs_of a ++ runs_of b.
Proof.
  induction a as [|e a IH]; [reflexivity|].
  destruct e; simpl; now rewrite IH.
Qed.

Lemma http_calls_of_app (a b : list event) :
  http_calls_of (a ++ b) = http_calls_of a ++ http_calls_of b.
Proof.
  induction a as [|e a IH]; [reflexivity|].
  destruct e; simpl; now rewrite IH.
Qed.

Lemma mkdtemps_of_app (a b : list event) :
  mkdtemps_of (a ++ b) = mkdtemps_of a ++ mkdtemps_of b.
Proof.
  induction a as [|e a IH]; [reflexivity|].
  destruct e; simpl; now rewrite IH.
Qed.

(** The readings of a trace that a computation leaves as they were. *)
Ltac trace_readings :=
  cbn [emit trace dirs files fst snd];
  rewrite ?runs_of_app, ?http_calls_of_app, ?mkdtemps_of_app;
  cbn [runs_of http_calls_of mkdtemps_of];
  rewrite ?app_nil_r.

(** After the command, [put] only prints. *)
Lemma put_result_quiet (blob : bytes) (mime : option str)
    (tags : option (list (str * str))) (filename : str)
    (result : CompletedProcess) (w w' : world) (o : outcome StorageResult) :
  put_result blob mime tags filename result w = (o, w') ->
  runs_of (trace w') = runs_of (trace w) /\
  http_calls_of (trace w') = http_calls_of (trace w) /\
  mkdtemps_of (trace w') = mkdtemps_of (trace w).
Proof.
  unfold put_result.
  destruct (returncode result =? 0)%Z.
  - destruct (_parse_cli_output_total (stdout result)) as [fields Hf].
    unfold bind at 1, lift; rewrite Hf.
    destruct (root_cid fields) as [[|c root]|];
      unfold bind, print2, print, ret; intros H; injection H as <- <-;
      trace_readings; auto.
  - unfold bind, print2, print, ret; intros H; injection H as <- <-;
      trace_readings; auto.
Qed.

Lemma put_except_quiet (e : exn) (w : world) :
  snd (put_except e w) = w.
Proof. unfold put_except; now destruct (is_TimeoutExpired e). Qed.


Lemma get_attempt_effects (url : str) (w : world) :
  exists o w',
    get_attempt sys url w = (Ret o, w') /\
    dirs w' = dirs w /\ files w' = files w /\
    runs_of (trace w') = runs_of (trace w) /\
    mkdtemps_of (trace w') = mkdtemps_of (trace w) /\
    http_calls_of (trace w') = http_calls_of (trace w) ++ [(url, 30%Z)].
Proof.
  unfold get_attempt, try_except, bind, print, requests_get.
  destruct (sys_requests_get sys url 30) as [response|e].
  - destruct (status_code response =? 200)%Z;
      eexists _, _; (split; [reflexivity|]); trace_readings; auto 6.
  - eexists _, _; (split; [reflexivity|]); trace_readings; auto 6.
Qed.

Lemma get_loop_effects (urls : list str) (w w' : world)
    (o : outcome (bytes * list (str * pyobj))) :
  get_loop sys urls w = (o, w') ->
  dirs w' = dirs w /\ files w' = files w /\
  runs_of (trace w') = runs_of (trace w) /\
  mkdtemps_of (trace w') = mkdtemps_of (trace w) /\
  exists k,
    (k <= List.length urls)%nat /\
    http_calls_of (trace w')
    = http_calls_of (trace w)
      ++ List.map (fun url => (url, 30%Z)) (firstn k urls).
Proof.
  revert w; induction urls as [|url urls IH]; intros w.
  - cbn; intros H; injection H as <- <-; repeat split.
    exists 0%nat; split; [lia | now rewrite app_nil_r].
  - destruct (get_attempt_effects url w)
      as (a & w1 & Ha & Hd & Hf & Hr & Hm & Hh).
    cbn [get_loop]; unfold bind at 1; rewrite Ha.
    destruct a as [v|].
    + cbn [ret]; intros H; injection H as <- <-; repeat split; auto.
      exists 1%nat; split; [cbn; lia | exact Hh].
    + intros H; destruct (IH w1 H) as (Hd' & Hf' & Hr' & Hm' & k & Hk & Hh').
      repeat split; try congruence.
      exists (S k); split; [cbn; lia|].
      rewrite Hh', Hh, <- app_assoc; reflexivity.
Qed.

End Effects.

(** X7: [put] runs at most one command: the one built by [_build_command]
    for the staged file, with a time limit of 300 seconds, when the
    temporary directory and the payload file were created, and none
    otherwise.  It asks for one temporary directory, and makes no HTTP
    request. *)
Theorem put_runs_one_command (sys : system) (self : FilecoinPinStorageProvider)
    (blob : bytes) (mime : option str) (tags : option (list (str * str)))
    (idempotency_key : option str) (w : world) :
  let w' := snd (put sys self blob mime tags idempotency_key w) in
  runs_of (trace w') = runs_of (trace w) ++ staged_command sys self blob mime /\
  mkdtemps_of (trace w')
  = mkdtemps_of (trace w) ++ [lit "chaoschain_filecoin_pin_"] /\
  http_calls_of (trace w') = http_calls_of (trace w).
Proof.
  unfold staged_command, put, try_except, bind, mkdtemp.
  destruct (sys_mkdtemp sys _) as [temp_dir|e] eqn:Emk.
  2:{ cbv zeta; rewrite put_except_quiet.
      cbn [emit trace]; rewrite runs_of_app, http_calls_of_app, mkdtemps_of_app.
      cbn; now rewrite !app_nil_r. }
  unfold write_bytes.
  destruct (sys_write_bytes sys _ blob) as [[]|e] eqn:Ewr.
  2:{ cbv zeta; rewrite put_except_quiet.
      cbn [emit trace];
        rewrite !runs_of_app, !http_calls_of_app, !mkdtemps_of_app.
      cbn; now rewrite !app_nil_r. }
  unfold try_finally, bind, print, subprocess_run.
  destruct (sys_run sys _ 300) as [result|e] eqn:Erun.
  - match goal with |- context [put_result ?b ?m ?t ?f ?res ?w1] =>
      destruct (put_result_shape b m t f res w1) as (r & w2 & Hr & _);
      destruct (@put_result_quiet b m t f res w1 w2 (Ret r) Hr)
        as (Hq1 & Hq2 & Hq3)
    end.
    rewrite Hr; cbv zeta; cbn [rmtree snd trace].
    rewrite runs_of_app, http_calls_of_app, mkdtemps_of_app, Hq1, Hq2, Hq3.
    cbn [emit trace];
      rewrite !runs_of_app, !http_calls_of_app, !mkdtemps_of_app.
    cbn; rewrite ?app_nil_r, <- ?app_assoc; auto.
  - cbv zeta; cbn [rmtree]; rewrite put_except_quiet.
    cbn [emit trace];
      rewrite !runs_of_app, !http_calls_of_app, !mkdtemps_of_app.
    cbn; rewrite ?app_nil_r, <- ?app_assoc; auto.
Qed.



(** X9: [get] changes neither directories nor files and runs no command;
    the requests it makes are, in order, the first [k] gateways of its
    list for some [k] up to four, each with a time limit of 30 seconds. *)
Theorem get_effects (sys : system) (uri : str) (w : world) :
  let w' := snd (get sys uri w) in
  dirs w' = dirs w /\ files w' = files w /\
  runs_of (trace w') = runs_of (trace w) /\
  mkdtemps_of (trace w') = mkdtemps_of (trace w) /\
  exists k,
    (k <= 4)%nat /\
    http_calls_of (trace w')
    = http_calls_of (trace w)
      ++ List.map (fun url => (url, 30%Z))
           (firstn k (gateways (replace uri (lit "ipfs://") []))).
Proof.
  unfold get, try_except, bind, import_requests, lift.
  destruct (sys_import_requests sys) as [[]|e].
  - destruct (get_loop sys (gateways (replace uri (lit "ipfs://") [])) w)
      as [o w1] eqn:E.
    pose proof (@get_loop_effects sys _ _ _ _ E) as H.
    destruct o as [v|e]; exact H.
  - cbv zeta; cbn [raise snd]; repeat split.
    exists 0%nat; split; [lia | now rewrite app_nil_r].
Qed.

(** X10: a value returned by [get] is the answer of a gateway of its list:
    that gateway answered 200, every gateway before it in the list failed,
    the bytes are the body of the answer and the metadata are its content
    type, its content length and the URL of the gateway. *)
Theorem get_returns_gateway_answer (sys : system) (uri : str) (w w' : world)
    (body : bytes) (meta : list (str * pyobj)) :
  get sys uri w = (Ret (body, meta), w') ->
  exists pre url post response,
    gateways (replace uri (lit "ipfs://") []) = pre ++ url :: post /\
    Forall (gateway_fails sys) pre /\
    sys_requests_get sys url 30 = Ret response /\
    status_code response = 200%Z /\
    body = content response /\
    meta = [(lit "content-type",
             opt_str (headers response (lit "Content-Type")));
            (lit "content-length",
             opt_str (headers response (lit "Content-Length")));
            (lit "gateway", PyStr url)].
Proof.
  unfold get, try_except, bind, import_requests, lift.
  destruct (sys_import_requests sys) as [[]|e]; [|discriminate].
  destruct (first_success_or_none sys (gateways (replace uri (lit "ipfs://") [])))
    as [Hall | (pre & url & post & response & Hlist & Hpre & Hget & Hcode)].
  - destruct (@get_loop_all_fail sys _ w Hall) as (w1 & -> & _); discriminate.
  - destruct (@get_loop_first_success sys pre url post response w Hpre Hget Hcode)
      as (w1 & Hloop & _).
    rewrite Hlist, Hloop; intros H; injection H as <- <- <-.
    exists pre, url, post, response; repeat split; auto.
Qed.

Lemma get_returns_gateway_answer_witness :
  exists pre url post response,
    gateways (replace (lit "ipfs://abc") (lit "ipfs://") []) = pre ++ url :: post /\
    Forall (gateway_fails sys_second_gateway) pre /\
    sys_requests_get sys_second_gateway url 30 = Ret response /\
    status_code response = 200%Z /\
    content sample_response = content response /\
    [(lit "content-type",
      opt_str (headers sample_response (lit "Content-Type")));
     (lit "content-length",
      opt_str (headers sample_response (lit "Content-Length")));
     (lit "gateway", PyStr (lit "https://gateway.pinata.cloud/ipfs/abc"))]
    = [(lit "content-type",
        opt_str (headers response (lit "Content-Type")));
       (lit "content-length",
        opt_str (headers response (lit "Content-Length")));
       (lit "gateway", PyStr url)].
Proof.
  apply (@get_returns_gateway_answer sys_second_gateway (lit "ipfs://abc")
           world0 (snd (get sys_second_gateway (lit "ipfs://abc") world0))).
  reflexivity.
Defined.

(* ================================================================== *)
(** * Lines and fields of the output *)

Section LineFacts.

Lemma one_line_incl (s t : str) :
  one_line s -> incl t s -> one_line t.
Proof.
  unfold one_line; rewrite !Forall_forall; intros H Hi c Hc; auto.
Qed.

Lemma one_line_app (s t : str) : one_line s -> one_line t -> one_line (s ++ t).
Proof. unfold one_line; intros; apply Forall_app; auto. Qed.

Lemma one_line_rev (s : str) : one_line s -> one_line (rev s).
Proof. unfold one_line; apply Forall_rev. Qed.

Lemma cr_is_linebreak (c : N) : (c =? 13)%N = true -> is_linebreak c = true.
Proof. intros H; apply N.eqb_eq in H; now subst. Qed.

(** The lines [splitlines] gives hold no line boundary. *)
Lemma splitlines_go_one_line (n : nat) :
  forall s cur line,
    (List.length s <= n)%nat -> one_line cur ->
    In line (splitlines_go cur s) -> one_line line.
Proof.
  induction n as [|n IH]; intros s cur line Hlen Hcur Hin.
  - destruct s; [|simpl in Hlen; lia].
    simpl in Hin; destruct cur; [contradiction|].
    destruct Hin as [<-|[]]; now apply one_line_rev.
  - destruct s as [|c s]; simpl in Hin.
    + destruct cur; [contradiction|].
      destruct Hin as [<-|[]]; now apply one_line_rev.
    + simpl in Hlen.
      destruct (c =? 13)%N eqn:Ecr.
      * destruct s as [|d s].
        -- destruct Hin as [<-|Hin]; [now apply one_line_rev|].
           apply (IH [] [] line); [simpl; lia | constructor | exact Hin].
        -- destruct (d =? 10)%N;
             (destruct Hin as [<-|Hin]; [now apply one_line_rev|]).
           ++ apply (IH s [] line); [simpl in Hlen; lia | constructor | exact Hin].
           ++ apply (IH (d :: s) [] line); [lia | constructor | exact Hin].
      * destruct (is_linebreak c) eqn:Elb.
        -- destruct Hin as [<-|Hin]; [now apply one_line_rev|].
           apply (IH s [] line); [lia | constructor | exact Hin].
        -- apply (IH s (c :: cur) line); [lia | now constructor | exact Hin].
Qed.

Lemma splitlines_one_line (s line : str) :
  In line (splitlines s) -> one_line line.
Proof.
  apply (splitlines_go_one_line (n := List.length s)); [lia | constructor].
Qed.

(** A line is read up to the line feed that ends it. *)
Lemma splitlines_go_line (line rest cur : str) :
  one_line line ->
  splitlines_go cur (line ++ 10%N :: rest)
  = (rev cur ++ line) :: splitlines rest.
Proof.
  intros H; revert cur; induction H as [|c line Hc Hline IH]; intros cur.
  - cbn; now rewrite app_nil_r.
  - cbn [app splitlines_go].
    destruct (c =? 13)%N eqn:Ecr;
      [apply cr_is_linebreak in Ecr; congruence|].
    rewrite Hc, IH; cbn [rev]; now rewrite <- app_assoc.
Qed.

Lemma splitlines_line (line rest : str) :
  one_line line -> splitlines (line ++ 10%N :: rest) = line :: splitlines rest.
Proof. intros H; unfold splitlines at 1; now rewrite splitlines_go_line. Qed.

(** Text that ends with a line feed is read for itself: what follows it
    starts a new line. *)
Lemma splitlines_go_feed (n : nat) :
  forall s cur t,
    (List.length s <= n)%nat ->
    splitlines_go cur (s ++ 10%N :: t)
    = splitlines_go cur (s ++ [10%N]) ++ splitlines t.
Proof.
  induction n as [|n IH]; intros s cur t Hlen.
  - destruct s; [|simpl in Hlen; lia].
    cbn; destruct cur; reflexivity.
  - destruct s as [|c s]; [cbn; destruct cur; reflexivity|].
    simpl in Hlen; cbn [app splitlines_go].
    destruct (c =? 13)%N.
    + destruct s as [|d s]; [reflexivity|].
      cbn [app]; destruct (d =? 10)%N.
      * rewrite (IH s [] t); [reflexivity | simpl in Hlen; lia].
      * change (d :: s ++ 10%N :: t) with ((d :: s) ++ 10%N :: t).
        change (d :: s ++ [10%N]) with ((d :: s) ++ [10%N]).
        rewrite (IH (d :: s) [] t); [reflexivity | lia].
    + destruct (is_linebreak c).
      * rewrite (IH s [] t); [reflexivity | lia].
      * apply IH; lia.
Qed.

Lemma splitlines_at_line_start (head t : str) :
  at_line_start head -> splitlines (head ++ t) = splitlines head ++ splitlines t.
Proof.
  intros [-> | [s ->]]; [reflexivity|].
  unfold splitlines at 1 2; rewrite <- app_assoc; cbn [app].
  apply (splitlines_go_feed (n := List.length s)); lia.
Qed.

End LineFacts.

Section FieldFacts.

Lemma split_from_incl (s sep : str) :
  forall k part, In part (split_from k s sep) -> incl part s.
Proof.
  induction s as [|c s IH]; intros k part Hin.
  - destruct Hin as [<-|[]]; intros x [].
  - cbn [split_from] in Hin; destruct k as [|k].
    + destruct (startswith (c :: s) sep).
      * destruct Hin as [<-|Hin]; [intros x []|].
        apply incl_tl; apply (IH _ _ Hin).
      * destruct (split_from 0 s sep) as [|p ps] eqn:E; cbn in Hin.
        -- destruct Hin as [<-|[]]; intros x [<-|[]]; now left.
        -- destruct Hin as [<-|Hin].
           ++ intros x [<-|Hx]; [now left|].
              right; apply (IH 0%nat p); [rewrite E; now left | exact Hx].
           ++ apply incl_tl; apply (IH 0%nat); rewrite E; now right.
    + apply incl_tl; apply (IH _ _ Hin).
Qed.

Lemma item1_incl (s sep v : str) :
  item1 (split s sep) = Ret v -> incl v s.
Proof.
  unfold split; intros H.
  apply (split_from_incl s sep 0%nat).
  destruct (split_from 0 s sep) as [|a [|b rest]]; try discriminate.
  injection H as <-; right; now left.
Qed.

Lemma strip_incl (s : str) : incl (strip s) s.
Proof.
  destruct (strip_infix s) as [pre [post E]].
  intros c Hc; rewrite E; apply in_or_app; right; apply in_or_app; now left.
Qed.

Lemma lstrip_app (l m : str) :
  lstrip (l ++ m) = match lstrip l with [] => lstrip m | _ => lstrip l ++ m end.
Proof.
  induction l as [|c l IH]; [reflexivity|].
  cbn [app lstrip]; destruct (isspace c); [exact IH | reflexivity].
Qed.

Lemma lstrip_idem (s : str) : lstrip (lstrip s) = lstrip s.
Proof.
  induction s as [|c s IH]; [reflexivity|].
  cbn [lstrip]; destruct (isspace c) eqn:E; [exact IH|].
  cbn [lstrip]; now rewrite E.
Qed.

Lemma rstrip_idem (s : str) : rstrip (rstrip s) = rstrip s.
Proof. unfold rstrip; now rewrite rev_involutive, lstrip_idem. Qed.

(** Stripping the right end leaves a left end that has nothing to strip
    as it is. *)
Lemma lstrip_rstrip (s : str) : lstrip s = s -> lstrip (rstrip s) = rstrip s.
Proof.
  destruct s as [|c s]; [reflexivity|].
  cbn [lstrip]; destruct (isspace c) eqn:E.
  - intros H; exfalso.
    destruct (lstrip_suffix s) as [pre Hpre].
    assert (List.length (lstrip s) <= List.length s)%nat
      by (rewrite Hpre at 2; rewrite length_app; lia).
    rewrite H in H0; simpl in H0; lia.
  - intros _; unfold rstrip; cbn [rev]; rewrite lstrip_app.
    destruct (lstrip (rev s)) as [|x l] eqn:El.
    + cbn [lstrip]; rewrite E; cbn; now rewrite E.
    + rewrite rev_app_distr; cbn [rev app lstrip]; now rewrite E.
Qed.

Lemma strip_idem (s : str) : strip (strip s) = strip s.
Proof.
  unfold strip; rewrite (lstrip_rstrip (lstrip_idem s)); apply rstrip_idem.
Qed.

Lemma take_while_incl (f : N -> bool) (s : str) : incl (take_while f s) s.
Proof.
  induction s as [|c s IH]; [intros x []|].
  cbn; destruct (f c); [|intros x []].
  intros x [<-|Hx]; [now left | right; auto].
Qed.

Lemma take_while_all (f : N -> bool) (s : str) :
  Forall (fun c => f c = true) (take_while f s).
Proof.
  induction s as [|c s IH]; [constructor|].
  cbn; destruct (f c) eqn:E; constructor; auto.
Qed.

Lemma re_search_loaded_group (s g : str) :
  re_search_loaded s = Some g ->
  g <> [] /\ incl g s /\ Forall (fun c => c <> 41%N) g.
Proof.
  induction s as [|c s IH]; cbn [re_search_loaded].
  - destruct (match_loaded []) eqn:E; [|discriminate].
    unfold match_loaded in E; cbn in E; discriminate.
  - destruct (match_loaded (c :: s)) as [g'|] eqn:E.
    + intros H; injection H as <-.
      unfold match_loaded in E.
      destruct (startswith (c :: s) (lit "IPFS content loaded (")); [|discriminate].
      set (rest := skipn _ (c :: s)) in E.
      pose proof (take_while_incl not_rparen rest) as Hi.
      pose proof (take_while_all not_rparen rest) as Ha.
      destruct (take_while not_rparen rest) as [|x g]; [discriminate|].
      destruct (drop_while not_rparen rest); [discriminate|].
      injection E as <-; split; [discriminate|]; split.
      * intros y Hy; apply Hi in Hy.
        unfold rest in Hy.
        rewrite <- (firstn_skipn (List.length (lit "IPFS content loaded (")) (c :: s)).
        apply in_or_app; now right.
      * eapply Forall_impl; [|exact Ha].
        intros a Hna Heq; subst; discriminate.
    + intros H; destruct (IH H) as (Hn & Hi & Hf).
      split; [exact Hn|]; split; [now apply incl_tl | exact Hf].
Qed.

Lemma clean_stripped (line v : str) :
  one_line line -> incl v line -> clean_value (Some (strip v)).
Proof.
  intros Hl Hi w Hw; injection Hw as <-; split; [apply strip_idem|].
  apply (one_line_incl Hl); intros c Hc; apply Hi; now apply strip_incl.
Qed.

(** The loop of the parser keeps the fields clean. *)
Lemma parse_line_clean (line : str) (f f' : cli_fields) :
  one_line line -> fields_clean f ->
  parse_line line f = Ret f' -> fields_clean f'.
Proof.
  intros Hl (Hr & Hp & Hd & Ht & Hs); unfold parse_line.
  repeat match goal with
         | |- context [if ?b then _ else _] => destruct b
         | |- context [item1 (split line ?sep)] =>
             let E := fresh "E" in
             destruct (item1 (split line sep)) eqn:E; cbn [obind];
             [apply item1_incl in E|discriminate]
         | |- context [match re_search_loaded line with _ => _ end] =>
             let E := fresh "Eg" in
             destruct (re_search_loaded line) eqn:E
         end;
    intros H; injection H as <-; unfold fields_clean;
    cbn [root_cid piece_cid data_set_id transaction_hash file_size_display];
    repeat match goal with |- _ /\ _ => split end;
    try assumption;
    try (eapply clean_stripped; eassumption).
  all: intros g' Hg'; injection Hg' as <-.
  all: match goal with
       | Eg : re_search_loaded _ = Some _ |- _ =>
           destruct (re_search_loaded_group _ Eg) as (Hn & Hi & Hf)
       end.
  all: repeat split; auto; apply (one_line_incl Hl Hi).
Qed.

Lemma parse_lines_clean (lines : list str) (f f' : cli_fields) :
  (forall line, In line lines -> one_line line) -> fields_clean f ->
  parse_lines lines f = Ret f' -> fields_clean f'.
Proof.
  revert f; induction lines as [|line rest IH]; intros f Hl Hf; simpl.
  - intros H; now injection H as <-.
  - destruct (parse_line line f) as [f1|e] eqn:E; simpl; [|discriminate].
    apply IH; [intros l Hin; apply Hl; now right|].
    apply (parse_line_clean (Hl line (or_introl eq_refl)) Hf E).
Qed.

Lemma _parse_cli_output_clean (output : str) (f : cli_fields) :
  _parse_cli_output output = Ret f -> fields_clean f.
Proof.
  apply parse_lines_clean; [apply splitlines_one_line|].
  unfold fields_clean, clean_value; cbn.
  repeat match goal with |- _ /\ _ => split end; intros v Hv; discriminate Hv.
Qed.

End FieldFacts.

Section RootLineFacts.

Lemma parse_lines_app (a b : list str) (f : cli_fields) :
  parse_lines (a ++ b) f = (f' <~ parse_lines a f ;; parse_lines b f').
Proof.
  revert f; induction a as [|line a IH]; intros f; [reflexivity|].
  cbn [app parse_lines]; destruct (parse_line line f); cbn [obind]; auto.
Qed.

Lemma split_from_skip (u t sep : str) :
  split_from (List.length u) (u ++ t) sep = split_from 0 t sep.
Proof. induction u as [|c u IH]; simpl; auto. Qed.

Lemma split_from_absent (s sep : str) :
  contains s sep = false -> split_from 0 s sep = [s].
Proof.
  induction s as [|c s IH]; intros H; [reflexivity|].
  simpl in H; apply orb_false_elim in H as [H1 H2].
  cbn [split_from]; rewrite H1, (IH H2); reflexivity.
Qed.

(** A line is split at the first label when nothing before it starts one. *)
Lemma split_at_label (c : N) (label pre v : str) :
  Forall (fun x => x <> c) pre ->
  contains v (c :: label) = false ->
  split (pre ++ (c :: label) ++ v) (c :: label) = [pre; v].
Proof.
  unfold split; intros Hpre Hv; induction Hpre as [|x pre Hx Hpre IH].
  - cbn [app split_from].
    change (startswith (c :: label ++ v) (c :: label))
      with (startswith ((c :: label) ++ v) (c :: label)).
    rewrite startswith_app.
    replace (List.length (c :: label) - 1)%nat with (List.length label)
      by (simpl; lia).
    now rewrite split_from_skip, split_from_absent.
  - cbn [app] in IH |- *; cbn [split_from startswith].
    destruct (c =? x)%N eqn:E; [apply N.eqb_eq in E; congruence|].
    cbn [andb]; rewrite IH; reflexivity.
Qed.

Lemma splitlines_last_line (line : str) :
  one_line line -> line <> [] -> splitlines line = [line].
Proof.
  intros H Hn; unfold splitlines.
  assert (G : forall cur, splitlines_go cur line
                          = match rev cur ++ line with [] => [] | l => [l] end).
  { clear Hn; induction H as [|c line Hc Hline IH]; intros cur.
    - cbn; rewrite app_nil_r; destruct cur as [|x cur]; [reflexivity|].
      destruct (rev (x :: cur)) eqn:E; [|reflexivity].
      apply (f_equal (@List.length N)) in E; rewrite length_rev in E; discriminate.
    - cbn [splitlines_go].
      destruct (c =? 13)%N eqn:Ecr;
        [apply cr_is_linebreak in Ecr; congruence|].
      rewrite Hc, IH; cbn [rev]; now rewrite <- app_assoc. }
  rewrite G; cbn; destruct line; [congruence | reflexivity].
Qed.

End RootLineFacts.

(** X11: the fields [_parse_cli_output] returns are clean.  The root CID,
    the piece CID, the data set id and the transaction hash, when present,
    have no white space left at either end and hold no line boundary; the
    size, when present, is not empty, holds no closing parenthesis and no
    line boundary. *)
Theorem _parse_cli_output_fields_clean (output : str) :
  exists fields,
    _parse_cli_output output = Ret fields /\ fields_clean fields.
Proof.
  destruct (_parse_cli_output_total output) as [fields Hf].
  exists fields; split; [exact Hf | apply (_parse_cli_output_clean _ Hf)].
Qed.

(** X12: the CID of a successful [put] is a clean identifier: not empty,
    without white space at either end, and on one line; so is the URI
    made of it. *)
Theorem put_success_cid_clean (sys : system) (self : FilecoinPinStorageProvider)
    (blob : bytes) (mime : option str) (tags : option (list (str * str)))
    (idempotency_key : option str) (w w' : world) (r : StorageResult) :
  put sys self blob mime tags idempotency_key w = (Ret r, w') ->
  success r = true ->
  cid r <> [] /\ strip (cid r) = cid r /\ one_line (cid r) /\ one_line (uri r).
Proof.
  intros Hput Hs.
  destruct (put_shape sys self blob mime tags idempotency_key w)
    as (r0 & w0 & Hput0 & Hshape).
  rewrite Hput in Hput0; injection Hput0 as <- <-.
  destruct Hshape as [[(_ & Hne & _ & Huri & _) Hdone] | (Hf & _)];
    [|congruence].
  destruct Hdone as (d & result & fields & _ & _ & _ & _ & Hparse & Hroot & _).
  destruct (_parse_cli_output_clean _ Hparse) as (Hclean & _).
  destruct (Hclean _ Hroot) as [Hstrip Hline].
  repeat split; auto.
  rewrite Huri; apply one_line_app; [|exact Hline].
  unfold one_line; repeat constructor.
Qed.

Lemma put_success_cid_clean_witness :
  lit "bafyabc" <> [] /\ strip (lit "bafyabc") = lit "bafyabc" /\
  one_line (lit "bafyabc") /\ one_line (lit "ipfs://bafyabc").
Proof.
  apply (@put_success_cid_clean
           (sys_running (exit_ok (lit "  Root CID:   bafyabc  "))) sample_self
           [Byte.x68; Byte.x69] None None None world0
           (snd (put (sys_running (exit_ok (lit "  Root CID:   bafyabc  ")))
                   sample_self [Byte.x68; Byte.x69] None None None world0))
           {| success := true; uri := lit "ipfs://bafyabc";
              hash := lit "bafyabc"; provider := lit "filecoin-pin";
              cid := lit "bafyabc";
              view_url := lit "https://bafyabc.ipfs.dweb.link/chaoschain_payload.bin";
              size := 2;
              metadata :=
                [(lit "piece_cid", PyNone); (lit "data_set_id", PyNone);
                 (lit "transaction_hash", PyNone);
                 (lit "file_size_display", PyNone);
                 (lit "mime_type", PyNone); (lit "tags", PyDict []);
                 (lit "filecoin_pin", PyBool true);
                 (lit "payload_filename", PyStr (lit "chaoschain_payload.bin"));
                 (lit "dweb_gateway_url",
                  PyStr (lit "https://bafyabc.ipfs.dweb.link/chaoschain_payload.bin"))];
              error := [] |});
    reflexivity.
Defined.

(** X13: the root CID is read off the last line that has its label.  When
    the output has a line made of text without the letter R, the label
    [Root CID:] and a value, and no later line has the label, then, whatever
    comes before that line, the root CID returned is the value with the
    white space at its ends stripped. *)
Theorem _parse_cli_output_root_line (head pre v tail : str) :
  at_line_start head ->
  one_line pre -> Forall (fun c => c <> 82%N) pre ->
  one_line v -> contains v (lit "Root CID:") = false ->
  (tail = [] \/
   exists rest,
     tail = 10%N :: rest /\
     forall line, In line (splitlines rest) ->
                  contains line (lit "Root CID:") = false) ->
  exists fields,
    _parse_cli_output (head ++ (pre ++ lit "Root CID:" ++ v) ++ tail)
    = Ret fields /\
    root_cid fields = Some (strip v).
Proof.
  intros Hhead Hpre HnoR Hv Hnone Htail.
  set (line := pre ++ lit "Root CID:" ++ v).
  assert (Hline : one_line line).
  { apply one_line_app; [exact Hpre|]; apply one_line_app; [|exact Hv].
    unfold one_line; repeat constructor. }
  assert (Hne : line <> []).
  { intros E; apply (f_equal (@List.length N)) in E.
    unfold line in E; rewrite !length_app in E; simpl in E; lia. }
  assert (Hsplit : exists later,
             splitlines (line ++ tail) = line :: later /\
             forall l, In l later -> contains l (lit "Root CID:") = false).
  { destruct Htail as [-> | (rest & -> & Hrest)].
    - exists []; rewrite app_nil_r, (splitlines_last_line Hline Hne).
      split; [reflexivity | intros l []].
    - exists (splitlines rest); split; [now apply splitlines_line | exact Hrest]. }
  destruct Hsplit as (later & Hlines & Hlater).
  unfold _parse_cli_output.
  rewrite (splitlines_at_line_start _ Hhead), Hlines, parse_lines_app.
  match goal with |- context [parse_lines (splitlines head) ?f0] =>
    destruct (parse_lines_total (splitlines head) f0) as [f1 ->] end.
  cbn [obind parse_lines].
  assert (Hin : contains line (lit "Root CID:") = true)
    by (apply contains_spec; exists pre, v; reflexivity).
  unfold parse_line at 1; rewrite Hin.
  unfold line at 1.
  change (lit "Root CID:") with (82 :: lit "oot CID:")%N in Hnone |- *.
  rewrite (@split_at_label 82%N (lit "oot CID:") pre v HnoR Hnone);
    cbn [item1 obind].
  match goal with |- context [parse_lines later ?f2] =>
    destruct (parse_lines_total later f2) as [f3 Hf3];
    pose proof (@parse_lines_keep_root later f2 f3 Hlater Hf3) as Hkeep
  end.
  exists f3; split; [exact Hf3 | exact Hkeep].
Qed.

Lemma _parse_cli_output_root_line_witness :
  exists fields,
    _parse_cli_output
      (lit "Root CID: old" ++ [10%N]
       ++ (lit "  " ++ lit "Root CID:" ++ lit " bafyabc ")
       ++ 10%N :: lit "Piece CID: baga")
    = Ret fields /\
    root_cid fields = Some (strip (lit " bafyabc ")).
Proof.
  apply (@_parse_cli_output_root_line
           (lit "Root CID: old" ++ [10%N]) (lit "  ") (lit " bafyabc ")
           (10%N :: lit "Piece CID: baga")).
  - right; exists (lit "Root CID: old"); reflexivity.
  - unfold one_line; repeat constructor.
  - repeat constructor; discriminate.
  - unfold one_line; repeat constructor.
  - reflexivity.
  - right; exists (lit "Piece CID: baga"); split; [reflexivity|].
    intros line [<- | []]; reflexivity.
Defined.

(* ================================================================== *)
(** * Construction and the diagnostic *)

(** X14: the constructor fails fast.  It runs the version command once,
    with a time limit of 10 seconds, and returns a provider, holding the
    configuration it was given, exactly when that command completes with
    exit code 0; otherwise it raises: a missing executable and a timeout
    each with a message of their own, a non-zero exit code with the
    standard error of the command, any other exception with its text. *)
Theorem init_fails_fast (run_version : list str -> Z -> run_answer)
    (path : str) (auto_fund bare verbose : bool) (private_key : option str)
    (w : world) :
  let run := __init__ run_version path auto_fund bare verbose private_key w in
  runs_of (trace (snd run))
  = runs_of (trace w) ++ [([path; lit "--version"], 10%Z)] /\
  dirs (snd run) = dirs w /\ files (snd run) = files w /\
  ((exists self, fst run = Ret self) <-> version_ok run_version path) /\
  (forall self,
     fst run = Ret self ->
     self = {| filecoin_pin_path := path; auto_fund := auto_fund;
               bare := bare; verbose := verbose;
               private_key := private_key |}) /\
  (forall e,
     fst run = Raise e ->
     exn_str e
     = match run_version [path; lit "--version"] 10%Z with
       | Completed result =>
           lit "filecoin-pin CLI returned non-zero exit code: "
           ++ strip (stderr result)
       | Raised FileNotFoundError _ =>
           lit "filecoin-pin not found at path: " ++ path
       | Raised TimeoutExpiredError _ =>
           lit "filecoin-pin version command timed out"
       | Raised _ text => text
       end).
Proof.
  unfold __init__, bind, _verify_filecoin_pin, version_check, version_ok.
  cbn [filecoin_pin_path].
  destruct (run_version [path; lit "--version"] 10%Z) as [result|class text].
  - destruct (returncode result =? 0)%Z eqn:E; cbn [negb].
    + apply Z.eqb_eq in E.
      cbv zeta; cbn [ret fst snd emit trace dirs files].
      rewrite ?runs_of_app; cbn [runs_of]; rewrite ?app_nil_r, <- ?app_assoc.
      repeat split; eauto.
      * intros self H; now injection H as <-.
      * intros e H; discriminate H.
    + apply Z.eqb_neq in E.
      cbv zeta; cbn [fst snd emit trace dirs files].
      rewrite ?runs_of_app; cbn [runs_of]; rewrite ?app_nil_r, <- ?app_assoc.
      repeat split; auto.
      * intros [self H]; discriminate H.
      * intros (r & Hr & Hc); injection Hr as <-; contradiction.
      * intros self H; discriminate H.
      * intros e H; now injection H as <-.
  - destruct class; cbv zeta; cbn [fst snd emit trace dirs files];
      rewrite ?runs_of_app; cbn [runs_of]; rewrite ?app_nil_r, <- ?app_assoc;
      repeat split; auto;
      try (intros [self H]; discriminate H);
      try (intros (r & Hr & _); discriminate Hr);
      try (intros self H; discriminate H);
      intros e H; now injection H as <-.
Qed.

Section MonadFacts.

Lemma bind_returns (A B : Type) (m : M A) (k : A -> M B) (w w' : world) (a : A) :
  m w = (Ret a, w') -> bind m k w = k a w'.
Proof. unfold bind; now intros ->. Qed.

Lemma bind_raises (A B : Type) (m : M A) (k : A -> M B) (w w' : world)
    (e : exn) :
  m w = (Raise e, w') -> bind m k w = (Raise e, w').
Proof. unfold bind; now intros ->. Qed.

Lemma bind_print (B : Type) (text : str) (k : unit -> M B) (w : world) :
  bind (print text) k w = k tt (emit (Print text) w).
Proof. reflexivity. Qed.

Lemma try_except_returns (A : Type) (m : M A) (h : exn -> M A) (w w' : world)
    (a : A) :
  m w = (Ret a, w') -> try_except m h w = (Ret a, w').
Proof. unfold try_except; now intros ->. Qed.

Lemma try_except_raises (A : Type) (m : M A) (h : exn -> M A) (w w' : world)
    (e : exn) :
  m w = (Raise e, w') -> try_except m h w = h e w'.
Proof. unfold try_except; now intros ->. Qed.

End MonadFacts.

Section DiagnosticFacts.

Variable sys : system.
Variable run_version : list str -> Z -> run_answer.

Lemma init_returns_or_raises (path : str) (auto_fund bare verbose : bool)
    (private_key : option str) (w : world) :
  (version_ok run_version path /\
   exists w',
     __init__ run_version path auto_fund bare verbose private_key w
     = (Ret {| filecoin_pin_path := path; auto_fund := auto_fund;
               bare := bare; verbose := verbose;
               private_key := private_key |}, w')) \/
  (~ version_ok run_version path /\
   exists e w',
     __init__ run_version path auto_fund bare verbose private_key w
     = (Raise e, w')).
Proof.
  unfold __init__, bind, _verify_filecoin_pin, version_check, version_ok.
  cbn [filecoin_pin_path].
  destruct (run_version [path; lit "--version"] 10%Z) as [result|class text].
  - destruct (returncode result =? 0)%Z eqn:E; cbn [negb].
    + apply Z.eqb_eq in E; left; split; [eauto|].
      eexists; reflexivity.
    + apply Z.eqb_neq in E; right; split; [|eexists _, _; reflexivity].
      intros (r & Hr & Hc); injection Hr as <-; contradiction.
  - right; split; [intros (r & Hr & _); discriminate Hr|].
    destruct class; eexists _, _; reflexivity.
Qed.

(** When every step of the upload goes well, [put] returns the success. *)
Lemma put_upload_done (self : FilecoinPinStorageProvider) (blob : bytes)
    (mime : option str) (tags : option (list (str * str)))
    (idempotency_key : option str) (w : world) (root : str) :
  upload_done sys self blob mime root ->
  exists r w',
    put sys self blob mime tags idempotency_key w = (Ret r, w') /\
    success r = true /\ cid r = root /\ uri r = lit "ipfs://" ++ root.
Proof.
  intros (d & result & fields & Emk & Ewr & Erun & Ecode & Hparse & Hroot & Hne).
  destruct root as [|c root]; [congruence|].
  unfold put, try_except, bind, mkdtemp; rewrite Emk.
  unfold write_bytes; rewrite Ewr.
  unfold try_finally, bind, print, subprocess_run; rewrite Erun.
  unfold put_result; rewrite Ecode; cbn [Z.eqb].
  unfold bind, lift; rewrite Hparse, Hroot.
  eexists _, _; split; [reflexivity|]; repeat split.
Qed.

Lemma upload_done_unique (self : FilecoinPinStorageProvider) (blob : bytes)
    (mime : option str) (root root' : str) :
  upload_done sys self blob mime root -> upload_done sys self blob mime root' ->
  root = root'.
Proof.
  intros (d & result & fields & Emk & Ewr & Erun & Ecode & Hparse & Hroot & _)
         (d' & result' & fields' & Emk' & Ewr' & Erun' & Ecode' & Hparse' & Hroot' & _).
  rewrite Emk in Emk'; injection Emk' as <-.
  rewrite Erun in Erun'; injection Erun' as <-.
  rewrite Hparse in Hparse'; injection Hparse' as <-.
  congruence.
Qed.

(** [get] returns exactly when the HTTP client is there and some gateway
    of the list answers 200. *)
Lemma get_returns_iff (uri : str) (w : world) :
  (exists v w', get sys uri w = (Ret v, w')) <->
  sys_import_requests sys = Ret tt /\
  some_gateway_answers sys (replace uri (lit "ipfs://") []).
Proof.
  unfold get, try_except, bind, import_requests, lift, some_gateway_answers.
  destruct (sys_import_requests sys) as [[]|e].
  2:{ split; [intros (v & w' & H); discriminate H | intros [H _]; discriminate H]. }
  destruct (first_success_or_none sys (gateways (replace uri (lit "ipfs://") [])))
    as [Hall | (pre & url & post & response & Hlist & Hpre & Hget & Hcode)].
  - destruct (@get_loop_all_fail sys _ w Hall) as (w1 & -> & _).
    split; [intros (v & w' & H); discriminate H|].
    intros [_ (url & response & Hin & Hget & Hcode)].
    rewrite Forall_forall in Hall; specialize (Hall url Hin).
    unfold gateway_fails in Hall; rewrite Hget in Hall; contradiction.
  - destruct (@get_loop_first_success sys pre url post response w Hpre Hget Hcode)
      as (w1 & Hloop & _).
    rewrite Hlist, Hloop; split; [|eauto].
    intros _; split; [reflexivity|].
    exists url, response; repeat split; auto.
    rewrite ?Hlist; apply in_or_app; right; now left.
Qed.

End DiagnosticFacts.

(** X15: the diagnostic never raises, and its verdict is true exactly when
    the version command of [filecoin-pin] completes with exit code 0, the
    upload of the sample payload goes well, the HTTP client is there and
    some gateway answers 200 for the CID of the result.  The bytes the
    gateway returned do not enter the verdict. *)
Theorem test_storage_provider_verdict (sys : system)
    (run_version : list str -> Z -> run_answer)
    (getenv : str -> option str) (format : pyobj -> str) (w : world) :
  exists verdict w',
    test_storage_provider sys run_version getenv format w = (Ret verdict, w') /\
    (verdict = true <->
     version_ok run_version (lit "filecoin-pin") /\
     exists root,
       upload_done sys (diagnostic_provider getenv) test_data
         (Some (lit "application/json")) root /\
       sys_import_requests sys = Ret tt /\
       some_gateway_answers sys (replace root (lit "ipfs://") [])).
Proof.
  unfold test_storage_provider; rewrite !bind_print.
  set (w0 := emit _ (emit _ (emit _ w))).
  destruct (init_returns_or_raises run_version (lit "filecoin-pin") true false
              true (getenv (lit "FILECOIN_CALIBRATION_PRIVATE_KEY"))
              (emit (Print (lit "Initialising storage provider...")) w0))
    as [[Hok (w2 & Hinit)] | [Hno (e & w2 & Hinit)]].
  2:{ erewrite try_except_raises;
        [|rewrite bind_print; apply (@bind_raises _ _ _ _ _ _ _ Hinit)].
      rewrite bind_print; eexists _, _; split; [reflexivity|].
      split; [discriminate | intros [H _]; contradiction]. }
  fold (diagnostic_provider getenv) in Hinit.
  set (tags := Some [(lit "test", lit "true"); (lit "source", lit "chaoschain-demo")]).
  set (w3 := emit (Print (newline ++ lit "Uploading sample payload..."))
               (emit (Print (lit "Storage provider initialised.")) w2)).
  destruct (put_shape sys (diagnostic_provider getenv) test_data
              (Some (lit "application/json")) tags None w3)
    as (r & w4 & Hput & Hshape).
  pose proof (fun root =>
                @put_upload_done sys (diagnostic_provider getenv) test_data
                  (Some (lit "application/json")) tags None w3 root) as Hdone.
  destruct Hshape as [[(Hs & _ & _ & Huri & _) Hup] | (Hs & _)].
  2:{ erewrite try_except_returns.
      2:{ rewrite bind_print, (@bind_returns _ _ _ _ _ _ _ Hinit), !bind_print.
          fold w3; rewrite (@bind_returns _ _ _ _ _ _ _ Hput), Hs; cbn [negb].
          rewrite bind_print; reflexivity. }
      eexists _, _; split; [reflexivity|].
      split; [discriminate|].
      intros (_ & root & Hup & _).
      destruct (Hdone root Hup) as (r' & w' & Hput' & Hs' & _).
      rewrite Hput in Hput'; injection Hput' as <- <-; congruence. }
  assert (Hverify : verify (uri r) (cid r) = true)
    by (rewrite Huri; unfold verify; rewrite replace_prefixed; apply eqb_refl).
  set (w5 := emit (Print (newline ++ lit "Retrieving content through public gateway..."))
               (emit (Print (lit "Metadata: " ++ format (as_dict (metadata r))))
                  (emit (Print (lit "View URL: " ++ view_url r))
                     (emit (Print (lit "CID: " ++ cid r))
                        (emit (Print (lit "Upload succeeded.")) w4))))).
  pose proof (get_returns_iff sys (uri r) w5) as Hget.
  rewrite Huri, replace_prefixed in Hget; rewrite <- Huri in Hget.
  destruct (get sys (uri r) w5) as [[got|e] w6] eqn:Eget.
  - erewrite try_except_returns.
    2:{ rewrite bind_print, (@bind_returns _ _ _ _ _ _ _ Hinit), !bind_print.
        fold w3; rewrite (@bind_returns _ _ _ _ _ _ _ Hput), Hs; cbn [negb].
        rewrite !bind_print; fold w5; rewrite (@bind_returns _ _ _ _ _ _ _ Eget).
        rewrite !bind_print, Hverify; reflexivity. }
    eexists _, _; split; [reflexivity|].
    split; [intros _ | reflexivity].
    split; [exact Hok|]; exists (cid r); split; [exact Hup|].
    apply Hget; eauto.
  - erewrite try_except_raises.
    2:{ rewrite bind_print, (@bind_returns _ _ _ _ _ _ _ Hinit), !bind_print.
        fold w3; rewrite (@bind_returns _ _ _ _ _ _ _ Hput), Hs; cbn [negb].
        rewrite !bind_print; fold w5; apply (@bind_raises _ _ _ _ _ _ _ Eget). }
    rewrite bind_print; eexists _, _; split; [reflexivity|].
    split; [discriminate|].
    intros (_ & root & Hup' & Hrest).
    rewrite (upload_done_unique Hup' Hup) in Hrest.
    destruct (proj2 Hget Hrest) as (v & w' & H); discriminate H.
Qed.

(** The diagnostic on a sample run: the upload succeeds, a gateway answers
    with other bytes than the payload, and the verdict is true. *)
Example test_storage_provider_sample :
  fst (test_storage_provider sys_end_to_end version_installed
         (fun _ => None) (fun _ => []) world0) = Ret true /\
  bytes_eqb (content sample_response) test_data = false.
Proof. split; vm_compute; reflexivity. Qed.

(* ================================================================== *)
(** * The agent script *)

(** X16: [verify_ipfs_content] asks nothing for an empty CID and answers
    false.  For any other CID it makes one request, to the contact page of
    that CID with a time limit of 10 seconds, runs no command and touches no
    file; it answers true exactly when the page answers 200, false when the
    request fails with a RequestException, and lets any other exception
    through. *)
Theorem verify_ipfs_content_one_request (contact : str -> Z -> request_answer)
    (cid : str) (w : world) :
  let run := verify_ipfs_content contact cid w in
  let contact_url := lit "https://filecoinpin.contact/cid/" ++ cid in
  (cid = [] -> run = (Ret false, w)) /\
  (cid <> [] ->
   http_calls_of (trace (snd run))
   = http_calls_of (trace w) ++ [(contact_url, 10%Z)] /\
   runs_of (trace (snd run)) = runs_of (trace w) /\
   dirs (snd run) = dirs w /\ files (snd run) = files w /\
   fst run
   = match contact contact_url 10%Z with
     | Answered response => Ret (status_code response =? 200)%Z
     | RequestException _ => Ret false
     | OtherException text => Raise (Exception text)
     end).
Proof.
  cbv zeta; split; [intros ->; reflexivity|].
  destruct cid as [|c cid]; [congruence|]; intros _.
  unfold verify_ipfs_content; rewrite !bind_print; cbv beta zeta.
  destruct (contact (lit "https://filecoinpin.contact/cid/" ++ c :: cid) 10%Z)
    as [response|text|text].
  - destruct (status_code response =? 200)%Z; rewrite ?bind_print;
      cbn [ret fst snd emit trace dirs files];
      rewrite ?runs_of_app, ?http_calls_of_app; cbn [runs_of http_calls_of];
      rewrite ?app_nil_r; auto.
  - rewrite ?bind_print; cbn [ret fst snd emit trace dirs files];
      rewrite ?runs_of_app, ?http_calls_of_app; cbn [runs_of http_calls_of];
      rewrite ?app_nil_r; auto.
  - cbn [fst snd emit trace dirs files];
      rewrite ?runs_of_app, ?http_calls_of_app; cbn [runs_of http_calls_of];
      rewrite ?app_nil_r; auto.
Qed.

Section EnvFacts.

Lemma setenv_same (env : environ) (key value : str) :
  setenv env key value key = Some value.
Proof. unfold setenv; now rewrite eqb_refl. Qed.

Lemma setenv_other (env : environ) (key value k : str) :
  k <> key -> setenv env key value k = env k.
Proof.
  unfold setenv; intros H.
  destruct (PyStr.eqb k key) eqn:E; [apply eqb_eq in E; contradiction | reflexivity].
Qed.

(** The loop sets no variable that is set already. *)
Lemma mirror_env_keeps (mappings : list (str * str)) :
  forall (env : environ) k v, env k = Some v -> mirror_env mappings env k = Some v.
Proof.
  induction mappings as [|[u h] rest IH]; intros env k v Hk; [exact Hk|].
  cbn [mirror_env]; apply IH.
  destruct (env u) as [[|c x]|]; try exact Hk.
  destruct (env h) eqn:Eh; [exact Hk|].
  rewrite setenv_other; [exact Hk | intros ->; congruence].
Qed.

(** The loop changes none but the variables on the right of its mapping. *)
Lemma mirror_env_frame (mappings : list (str * str)) :
  forall (env : environ) k,
    ~ In k (List.map snd mappings) -> mirror_env mappings env k = env k.
Proof.
  induction mappings as [|[u h] rest IH]; intros env k Hk; [reflexivity|].
  cbn [mirror_env]; cbn [List.map snd In] in Hk.
  rewrite IH by tauto.
  destruct (env u) as [[|c x]|]; try reflexivity.
  destruct (env h); [reflexivity|].
  apply setenv_other; intros ->; tauto.
Qed.

End EnvFacts.

(** X17: the loop over the RPC variables only adds.  Every variable that
    is set keeps its value, so a hyphenated name that is set is never
    overwritten; only the two hyphenated names can change; each of them,
    when it is not set, takes the value of its underscore name when that is
    set and not empty, and stays unset otherwise; and running the loop again
    changes nothing more. *)
Theorem mirror_rpc_env_only_adds (env : environ) :
  let env' := mirror_rpc_env env in
  (forall k v, env k = Some v -> env' k = Some v) /\
  (forall k,
     k <> lit "BASE-SEPOLIA_RPC_URL" ->
     k <> lit "FILECOIN-CALIBRATION_RPC_URL" -> env' k = env k) /\
  (forall underscore_key hyphen_key,
     In (underscore_key, hyphen_key) RPC_ENV_MAPPINGS ->
     env hyphen_key = None ->
     env' hyphen_key
     = match env underscore_key with
       | Some (c :: v) => Some (c :: v)
       | _ => None
       end) /\
  (forall k, mirror_rpc_env env' k = env' k).
Proof.
  cbv zeta; unfold mirror_rpc_env.
  assert (Hkeep := mirror_env_keeps RPC_ENV_MAPPINGS).
  assert (Hframe := mirror_env_frame RPC_ENV_MAPPINGS).
  assert (Hadd : forall e underscore_key hyphen_key,
             In (underscore_key, hyphen_key) RPC_ENV_MAPPINGS ->
             e hyphen_key = None ->
             mirror_env RPC_ENV_MAPPINGS e hyphen_key
             = match e underscore_key with
               | Some (c :: v) => Some (c :: v)
               | _ => None
               end).
  { intros e u h [H | [H | []]] Hnone; injection H as <- <-.
    - cbn [RPC_ENV_MAPPINGS mirror_env]; rewrite Hnone.
      destruct (e (lit "BASE_SEPOLIA_RPC_URL")) as [[|c x]|] eqn:Eu.
      + destruct (e (lit "FILECOIN_CALIBRATION_RPC_URL")) as [[|c x]|];
          try exact Hnone.
        destruct (e (lit "FILECOIN-CALIBRATION_RPC_URL")); [exact Hnone|].
        rewrite setenv_other; [exact Hnone | intros H; vm_compute in H; discriminate H].
      + set (e1 := setenv e _ _).
        assert (H1 : e1 (lit "BASE-SEPOLIA_RPC_URL") = Some (c :: x))
          by apply setenv_same.
        destruct (e1 (lit "FILECOIN_CALIBRATION_RPC_URL")) as [[|c' x']|];
          try exact H1.
        destruct (e1 (lit "FILECOIN-CALIBRATION_RPC_URL")); [exact H1|].
        rewrite setenv_other; [exact H1 | intros H; vm_compute in H; discriminate H].
      + destruct (e (lit "FILECOIN_CALIBRATION_RPC_URL")) as [[|c x]|];
          try exact Hnone.
        destruct (e (lit "FILECOIN-CALIBRATION_RPC_URL")); [exact Hnone|].
        rewrite setenv_other; [exact Hnone | intros H; vm_compute in H; discriminate H].
    - cbn [RPC_ENV_MAPPINGS mirror_env].
      set (e1 := match e (lit "BASE_SEPOLIA_RPC_URL") with
                 | Some (c :: v) =>
                     match e (lit "BASE-SEPOLIA_RPC_URL") with
                     | Some _ => e
                     | None => setenv e (lit "BASE-SEPOLIA_RPC_URL") (c :: v)
                     end
                 | _ => e
                 end).
      assert (Hsame : forall k, k <> lit "BASE-SEPOLIA_RPC_URL" -> e1 k = e k).
      { intros k Hk; unfold e1.
        destruct (e (lit "BASE_SEPOLIA_RPC_URL")) as [[|c x]|]; try reflexivity.
        destruct (e (lit "BASE-SEPOLIA_RPC_URL")); [reflexivity|].
        now apply setenv_other. }
      rewrite !Hsame by (intros H; vm_compute in H; discriminate H).
      rewrite Hnone.
      destruct (e (lit "FILECOIN_CALIBRATION_RPC_URL")) as [[|c x]|];
        try (rewrite Hsame by (intros H; vm_compute in H; discriminate H);
             exact Hnone).
      apply setenv_same. }
  split; [exact (Hkeep env)|]; split; [|split; [exact (Hadd env)|]].
  - intros k H1 H2; apply Hframe; cbn; intuition congruence.
  - intros k.
    destruct (mirror_env RPC_ENV_MAPPINGS env k) as [v|] eqn:Ek;
      [now apply Hkeep|].
    destruct (PyStr.eqb k (lit "BASE-SEPOLIA_RPC_URL")) eqn:E1;
      [|destruct (PyStr.eqb k (lit "FILECOIN-CALIBRATION_RPC_URL")) eqn:E2].
    + apply eqb_eq in E1; subst k.
      assert (Hin : In (lit "BASE_SEPOLIA_RPC_URL", lit "BASE-SEPOLIA_RPC_URL")
                      RPC_ENV_MAPPINGS) by (now left).
      rewrite (Hadd _ _ _ Hin Ek).
      assert (Hu : mirror_env RPC_ENV_MAPPINGS env (lit "BASE_SEPOLIA_RPC_URL")
                   = env (lit "BASE_SEPOLIA_RPC_URL"))
        by (apply Hframe; cbn; intros [H | [H | []]]; vm_compute in H; discriminate H).
      rewrite Hu.
      destruct (env (lit "BASE-SEPOLIA_RPC_URL")) as [v|] eqn:Eh;
        [rewrite (Hkeep env _ _ Eh) in Ek; discriminate Ek|].
      rewrite (Hadd _ _ _ Hin Eh) in Ek; exact Ek.
    + apply eqb_eq in E2; subst k.
      assert (Hin : In (lit "FILECOIN_CALIBRATION_RPC_URL",
                        lit "FILECOIN-CALIBRATION_RPC_URL")
                      RPC_ENV_MAPPINGS) by (right; now left).
      rewrite (Hadd _ _ _ Hin Ek).
      assert (Hu : mirror_env RPC_ENV_MAPPINGS env
                     (lit "FILECOIN_CALIBRATION_RPC_URL")
                   = env (lit "FILECOIN_CALIBRATION_RPC_URL"))
        by (apply Hframe; cbn; intros [H | [H | []]]; vm_compute in H; discriminate H).
      rewrite Hu.
      destruct (env (lit "FILECOIN-CALIBRATION_RPC_URL")) as [v|] eqn:Eh;
        [rewrite (Hkeep env _ _ Eh) in Ek; discriminate Ek|].
      rewrite (Hadd _ _ _ Hin Eh) in Ek; exact Ek.
    + rewrite Hframe; [exact Ek|].
      cbn; intros [H | [H | []]]; subst k; now rewrite eqb_refl in *.
Qed.

Lemma mirror_rpc_env_only_adds_witness :
  mirror_rpc_env env_base_only (lit "BASE-SEPOLIA_RPC_URL")
  = match env_base_only (lit "BASE_SEPOLIA_RPC_URL") with
    | Some (c :: v) => Some (c :: v)
    | _ => None
    end.
Proof.
  apply (proj1 (proj2 (proj2 (mirror_rpc_env_only_adds env_base_only)))
           (lit "BASE_SEPOLIA_RPC_URL") (lit "BASE-SEPOLIA_RPC_URL"));
    [now left | reflexivity].
Defined.

(* ================================================================== *)
(** * The wallet script *)

Section AsciiFacts.

Lemma is_ascii_app (s t : str) : is_ascii s -> is_ascii t -> is_ascii (s ++ t).
Proof. unfold is_ascii; intros; apply Forall_app; auto. Qed.

Lemma hex_digit_ascii (n : N) : (n < 16)%N -> (Json.hex_digit n < 128)%N.
Proof.
  unfold Json.hex_digit; intros H.
  destruct (n <? 10)%N eqn:E; [apply N.ltb_lt in E|]; lia.
Qed.

Lemma u_escape_ascii (n : N) : is_ascii (Json.u_escape n).
Proof.
  unfold Json.u_escape, Json.hex4, is_ascii.
  change (lit "\u") with [92; 117]%N; cbn [app].
  repeat (constructor; [try lia; apply hex_digit_ascii; apply N.mod_lt; lia|]).
  constructor.
Qed.

(** A literal is ASCII when the check computes to true. *)
Lemma is_ascii_check (s : str) :
  forallb (fun c => (c <? 128)%N) s = true -> is_ascii s.
Proof.
  unfold is_ascii; rewrite forallb_forall, Forall_forall.
  intros H c Hc; apply N.ltb_lt; auto.
Qed.

Lemma escape_char_ascii (c : N) : is_ascii (Json.escape_char c).
Proof.
  unfold Json.escape_char.
  destruct (c =? 92)%N; [apply is_ascii_check; reflexivity|].
  destruct (c =? 34)%N; [apply is_ascii_check; reflexivity|].
  destruct (c =? 8)%N; [apply is_ascii_check; reflexivity|].
  destruct (c =? 12)%N; [apply is_ascii_check; reflexivity|].
  destruct (c =? 10)%N; [apply is_ascii_check; reflexivity|].
  destruct (c =? 13)%N; [apply is_ascii_check; reflexivity|].
  destruct (c =? 9)%N; [apply is_ascii_check; reflexivity|].
  destruct ((32 <=? c) && (c <=? 126))%bool eqn:E.
  { apply andb_prop in E as [_ E]; apply N.leb_le in E.
    constructor; [lia | constructor]. }
  destruct (c <? 65536)%N; [apply u_escape_ascii|].
  apply is_ascii_app; apply u_escape_ascii.
Qed.

Lemma encode_basestring_ascii_is_ascii (s : str) :
  is_ascii (Json.encode_basestring_ascii s).
Proof.
  unfold Json.encode_basestring_ascii.
  apply is_ascii_app; [repeat constructor; vm_compute; reflexivity|].
  apply is_ascii_app; [|repeat constructor; vm_compute; reflexivity].
  induction s as [|c s IH]; [constructor|].
  cbn [flat_map]; apply is_ascii_app; [apply escape_char_ascii | exact IH].
Qed.

Lemma encode_ascii (s : str) : is_ascii s -> Utf8.encode s = Ret (ascii_bytes s).
Proof.
  induction 1 as [|c s Hc Hs IH]; [reflexivity|].
  cbn [Utf8.encode ascii_bytes List.map].
  assert (Utf8.is_surrogate c = false) as ->.
  { unfold Utf8.is_surrogate.
    destruct (55296 <=? c)%N eqn:E; [apply N.leb_le in E; lia | reflexivity]. }
  rewrite IH; cbn [obind]; unfold Utf8.encode_char.
  apply N.ltb_lt in Hc; rewrite Hc; reflexivity.
Qed.

Lemma wallet_json_is_ascii (agent_name wallet_address private_key : str) :
  is_ascii (wallet_json agent_name wallet_address private_key).
Proof.
  unfold wallet_json.
  repeat (apply is_ascii_app;
          [first [apply encode_basestring_ascii_is_ascii
                 | unfold is_ascii; repeat constructor; vm_compute; reflexivity]|]).
  unfold is_ascii; repeat constructor; vm_compute; reflexivity.
Qed.

Lemma wallet_data_dumps (agent_name wallet_address private_key : str) :
  Json.dumps (wallet_data agent_name wallet_address private_key) 2
  = Ret (wallet_json agent_name wallet_address private_key).
Proof.
  unfold Json.dumps, wallet_data, wallet_json.
  cbn [Json.iterencode Json.key_text obind app].
  now rewrite <- !app_assoc.
Qed.

End AsciiFacts.

(** X18: the wallet script writes nothing unless it is configured.  When
    the account library is missing, or the private key is not set, empty or
    still the placeholder, it prints one error line and exits with status
    1, and the world is otherwise as before; and it exits in this way in no
    other case. *)
Theorem wallet_main_refuses (account_from_key : option (str -> outcome str))
    (getenv : str -> option str) (repo_root : str)
    (write_text : str -> bytes -> outcome unit) (w : world) :
  (wallet_not_configured account_from_key getenv ->
   exists message,
     wallet_main account_from_key getenv repo_root write_text w
     = (SystemExit 1, emit (Print (lit "ERROR: " ++ message)) w)) /\
  (forall code w',
     wallet_main account_from_key getenv repo_root write_text w
     = (SystemExit code, w') ->
     wallet_not_configured account_from_key getenv).
Proof.
  unfold wallet_main, wallet_not_configured, error_exit.
  destruct account_from_key as [from_key|].
  2:{ split; [intros _; eexists; reflexivity | intros; now left]. }
  destruct (getenv (lit "BASE_SEPOLIA_PRIVATE_KEY")) as [[|c k]|] eqn:Ekey.
  - split; [intros _; eexists; reflexivity | intros; auto].
  - destruct (PyStr.eqb (c :: k) (lit "your-base-sepolia-private-key")) eqn:E.
    + apply eqb_eq in E; rewrite E.
      split; [intros _; eexists; reflexivity | intros; auto].
    + split.
      * intros [H | [H | [H | H]]]; try discriminate H.
        exfalso.
        assert (PyStr.eqb (c :: k) (lit "your-base-sepolia-private-key") = true)
          by (apply eqb_eq; congruence).
        congruence.
      * intros code w'.
        destruct (from_key (c :: k)) as [address|e]; [|discriminate].
        rewrite wallet_data_dumps; cbn [obind].
        rewrite (encode_ascii (wallet_json_is_ascii _ _ _)).
        destruct (write_text _ _); discriminate.
  - split; [intros _; eexists; reflexivity | intros; auto].
Qed.

Lemma wallet_main_refuses_witness :
  exists message,
    wallet_main sample_from_key (fun _ => None) (lit "/repo")
      (fun _ _ => Ret tt) world0
    = (SystemExit 1, emit (Print (lit "ERROR: " ++ message)) world0).
Proof.
  apply (proj1 (wallet_main_refuses sample_from_key (fun _ => None)
                  (lit "/repo") (fun _ _ => Ret tt) world0)).
  right; left; reflexivity.
Defined.



(* ================================================================== *)
(** * Failures of the upload, and its command *)

(** X20: when the command exits with a code other than 0, [put] returns a
    failure whose error is the standard error of the command with the white
    space at its ends stripped, or a fixed message when nothing is left of
    it; the temporary directory is gone. *)
Theorem put_nonzero_exit (sys : system) (self : FilecoinPinStorageProvider)
    (blob : bytes) (mime : option str) (tags : option (list (str * str)))
    (idempotency_key : option str) (w : world) (temp_dir : str)
    (result : CompletedProcess) :
  sys_mkdtemp sys (lit "chaoschain_filecoin_pin_") = Ret temp_dir ->
  sys_write_bytes sys (temp_dir ++ lit "/" ++ _filename_for_mime mime) blob
    = Ret tt ->
  sys_run sys
    (_build_command self (temp_dir ++ lit "/" ++ _filename_for_mime mime)) 300
    = Ret result ->
  returncode result <> 0%Z ->
  exists r w',
    put sys self blob mime tags idempotency_key w = (Ret r, w') /\
    success r = false /\ cid r = [] /\ uri r = [] /\
    provider r = lit "filecoin-pin" /\
    error r
    = match strip (stderr result) with
      | [] => lit "filecoin-pin command failed"
      | c :: text => c :: text
      end /\
    exists_dir temp_dir w' = false.
Proof.
  intros Emk Ewr Erun Ecode.
  pose proof (@put_removes_temp_dir sys self blob mime tags idempotency_key
                w temp_dir Emk Ewr) as Hgone.
  revert Hgone.
  unfold put, try_except, bind, mkdtemp; rewrite Emk.
  unfold write_bytes; rewrite Ewr.
  unfold try_finally, bind, print, subprocess_run; rewrite Erun.
  unfold put_result; apply Z.eqb_neq in Ecode; rewrite Ecode.
  unfold bind, print2, print, ret; cbn [rmtree snd]; intros Hgone.
  eexists _, _; split; [reflexivity|].
  do 4 (split; [reflexivity|]).
  split; [|exact Hgone].
  cbn [error failure or_else]; destruct (strip (stderr result)); reflexivity.
Qed.

Lemma put_nonzero_exit_witness :
  exists r w',
    put (sys_running exit_error) sample_self [Byte.x68; Byte.x69]
      None None None world0 = (Ret r, w') /\
    success r = false /\ cid r = [] /\ uri r = [] /\
    provider r = lit "filecoin-pin" /\
    error r
    = match strip (lit "insufficient funds") with
      | [] => lit "filecoin-pin command failed"
      | c :: text => c :: text
      end /\
    exists_dir sample_dir w' = false.
Proof.
  apply (@put_nonzero_exit (sys_running exit_error) sample_self
           [Byte.x68; Byte.x69] None None None world0 sample_dir
           {| returncode := 1; stdout := [];
              stderr := lit "insufficient funds" |});
    try reflexivity.
  discriminate.
Defined.

(** X21: an exception other than the timeout, raised when the temporary
    directory is made, when the payload file is written or when the command
    is started, comes back as a failure whose error is the text of the
    exception after [Storage error: ]. *)
Theorem put_reports_exception (sys : system) (self : FilecoinPinStorageProvider)
    (blob : bytes) (mime : option str) (tags : option (list (str * str)))
    (idempotency_key : option str) (w : world) (e : exn) :
  put_raises sys self blob mime e ->
  is_TimeoutExpired e = false ->
  exists w',
    put sys self blob mime tags idempotency_key w
    = (Ret (failure (lit "filecoin-pin") (lit "Storage error: " ++ exn_str e)),
       w').
Proof.
  intros Hraise Hclass.
  unfold put, try_except, bind, mkdtemp.
  destruct Hraise as [Emk | (temp_dir & Emk & [Ewr | [Ewr Erun]])]; rewrite Emk.
  - unfold put_except; rewrite Hclass; eexists; reflexivity.
  - unfold write_bytes; rewrite Ewr.
    unfold put_except; rewrite Hclass; eexists; reflexivity.
  - unfold write_bytes; rewrite Ewr.
    unfold try_finally, bind, print, subprocess_run; rewrite Erun.
    cbn [rmtree]; unfold put_except; rewrite Hclass; eexists; reflexivity.
Qed.

Lemma put_reports_exception_witness :
  exists w',
    put sys_not_startable sample_self [Byte.x68; Byte.x69] None None None world0
    = (Ret (failure (lit "filecoin-pin")
              (lit "Storage error: "
               ++ exn_str (Exception (lit "[Errno 13] Permission denied")))),
       w').
Proof.
  apply (@put_reports_exception sys_not_startable sample_self
           [Byte.x68; Byte.x69] None None None world0
           (Exception (lit "[Errno 13] Permission denied"))).
  - right; exists sample_dir; split; [reflexivity|].
    right; split; reflexivity.
  - reflexivity.
Defined.



(* ================================================================== *)
(** * What the JSON upload stages *)

Section StagingFacts.

Variable sys : system.
Variable self : FilecoinPinStorageProvider.

Lemma writes_of_app (a b : list event) :
  writes_of (a ++ b) = writes_of a ++ writes_of b.
Proof.
  induction a as [|e a IH]; [reflexivity|].
  destruct e; simpl; now rewrite IH.
Qed.

Lemma put_result_writes_nothing (blob : bytes) (mime : option str)
    (tags : option (list (str * str))) (filename : str)
    (result : CompletedProcess) (w w' : world) (o : outcome StorageResult) :
  put_result blob mime tags filename result w = (o, w') ->
  writes_of (trace w') = writes_of (trace w).
Proof.
  unfold put_result.
  destruct (returncode result =? 0)%Z.
  - destruct (_parse_cli_output_total (stdout result)) as [fields Hf].
    unfold bind at 1, lift; rewrite Hf.
    destruct (root_cid fields) as [[|c root]|];
      unfold bind, print2, print, ret; intros H; injection H as <- <-;
      cbn [emit trace]; rewrite ?writes_of_app; cbn [writes_of];
      now rewrite ?app_nil_r.
  - unfold bind, print2, print, ret; intros H; injection H as <- <-;
      cbn [emit trace]; rewrite ?writes_of_app; cbn [writes_of];
      now rewrite ?app_nil_r.
Qed.

(** The calls [put] leaves in the trace: the payload file it writes, and
    the command it runs. *)
Lemma put_calls (blob : bytes) (mime : option str)
    (tags : option (list (str * str))) (idempotency_key : option str)
    (w : world) :
  let w' := snd (put sys self blob mime tags idempotency_key w) in
  writes_of (trace w')
  = writes_of (trace w)
    ++ match sys_mkdtemp sys (lit "chaoschain_filecoin_pin_") with
       | Ret temp_dir =>
           [(temp_dir ++ lit "/" ++ _filename_for_mime mime, blob)]
       | Raise _ => []
       end /\
  runs_of (trace w') = runs_of (trace w) ++ staged_command sys self blob mime /\
  http_calls_of (trace w') = http_calls_of (trace w).
Proof.
  unfold staged_command, put, try_except, bind, mkdtemp.
  destruct (sys_mkdtemp sys _) as [temp_dir|e] eqn:Emk.
  2:{ cbv zeta; rewrite put_except_quiet.
      cbn [emit trace]; rewrite writes_of_app, runs_of_app, http_calls_of_app.
      cbn; now rewrite !app_nil_r. }
  unfold write_bytes.
  destruct (sys_write_bytes sys _ blob) as [[]|e] eqn:Ewr.
  2:{ cbv zeta; rewrite put_except_quiet.
      cbn [emit trace];
        rewrite !writes_of_app, !runs_of_app, !http_calls_of_app.
      cbn; rewrite ?app_nil_r, <- ?app_assoc; auto. }
  unfold try_finally, bind, print, subprocess_run.
  destruct (sys_run sys _ 300) as [result|e] eqn:Erun.
  - match goal with |- context [put_result ?b ?m ?t ?f ?res ?w1] =>
      destruct (put_result_shape b m t f res w1) as (r & w2 & Hr & _);
      destruct (@put_result_quiet b m t f res w1 w2 (Ret r) Hr)
        as (Hq1 & Hq2 & _);
      pose proof (@put_result_writes_nothing b m t f res w1 w2 (Ret r) Hr)
        as Hq3
    end.
    rewrite Hr; cbv zeta; cbn [rmtree snd trace].
    rewrite writes_of_app, runs_of_app, http_calls_of_app, Hq1, Hq2, Hq3.
    cbn [emit trace];
      rewrite !writes_of_app, !runs_of_app, !http_calls_of_app.
    cbn; rewrite ?app_nil_r, <- ?app_assoc; auto.
  - cbv zeta; cbn [rmtree]; rewrite put_except_quiet.
    cbn [emit trace];
      rewrite !writes_of_app, !runs_of_app, !http_calls_of_app.
    cbn; rewrite ?app_nil_r, <- ?app_assoc; auto.
Qed.

End StagingFacts.

(** X23: [upload_json] stages nothing for data that cannot be serialized:
    it prints the exception and returns [None], and neither writes a file
    nor runs the command.  For data that can, the file it writes is
    [chaoschain_proof.json] in the temporary directory, holding the JSON
    payload, and the command it runs is the one [put] runs for that
    payload; it makes no HTTP request. *)
Theorem upload_json_staging (sys : system) (self : FilecoinPinStorageProvider)
    (data : pyobj) (filename : option str) (w : world) :
  match json_payload data with
  | Raise e =>
      upload_json sys self data filename w
      = (Ret None,
         emit (Print (lit "Exception during JSON upload: " ++ exn_str e)) w)
  | Ret payload =>
      let w' := snd (upload_json sys self data filename w) in
      writes_of (trace w')
      = writes_of (trace w)
        ++ match sys_mkdtemp sys (lit "chaoschain_filecoin_pin_") with
           | Ret temp_dir =>
               [(temp_dir ++ lit "/chaoschain_proof.json", payload)]
           | Raise _ => []
           end /\
      runs_of (trace w')
      = runs_of (trace w)
        ++ staged_command sys self payload (Some (lit "application/json")) /\
      http_calls_of (trace w') = http_calls_of (trace w)
  end.
Proof.
  unfold upload_json, try_except, bind, lift.
  destruct (json_payload data) as [payload|e]; [|reflexivity].
  pose proof (put_calls sys self payload (Some (lit "application/json"))
                (Some [(lit "filename", or_else filename (lit "data.json"))])
                None w) as H.
  cbv zeta in H |- *.
  destruct (put sys self payload (Some (lit "application/json"))
              (Some [(lit "filename", or_else filename (lit "data.json"))])
              None w) as [[r|e] w1]; cbn [snd] in H.
  - destruct H as (Hw & Hr & Hh).
    change (_filename_for_mime (Some (lit "application/json")))
      with (lit "chaoschain_proof.json") in Hw.
    change (lit "/" ++ lit "chaoschain_proof.json")
      with (lit "/chaoschain_proof.json") in Hw.
    destruct (success r); unfold print, ret; cbn [snd emit trace];
      rewrite ?writes_of_app, ?runs_of_app, ?http_calls_of_app;
      cbn [writes_of runs_of http_calls_of]; rewrite ?app_nil_r; auto.
  - destruct H as (Hw & Hr & Hh).
    change (_filename_for_mime (Some (lit "application/json")))
      with (lit "chaoschain_proof.json") in Hw.
    change (lit "/" ++ lit "chaoschain_proof.json")
      with (lit "/chaoschain_proof.json") in Hw.
    unfold print, ret; cbn [snd emit trace];
      rewrite ?writes_of_app, ?runs_of_app, ?http_calls_of_app;
      cbn [writes_of runs_of http_calls_of]; rewrite ?app_nil_r; auto.
Qed.

(** The data of the sample cannot be serialized, and nothing is staged. *)
Example upload_json_staging_sample :
  upload_json (sys_running exit_error) sample_self unserializable_data None
    world0
  = (Ret None,
     emit (Print (lit "Exception during JSON upload: "
                  ++ lit "Object of type datetime is not JSON serializable"))
       world0).
Proof. vm_compute; reflexivity. Qed.

Section StringsFacts.

Lemma item_texts_of_strings (items : list (str * str)) :
  item_texts 2
    (List.map (fun kv => (PyStr (fst kv), PyStr (snd kv))) items)
  = Ret (List.map string_item items).
Proof.
  induction items as [|kv items IH]; [reflexivity|].
  cbn [List.map item_texts]; rewrite IH.
  unfold item_text; cbn [fst snd Json.key_text Json.iterencode obind].
  reflexivity.
Qed.

Lemma join_is_ascii (sep : str) (parts : list str) :
  is_ascii sep -> Forall is_ascii parts -> is_ascii (join sep parts).
Proof.
  intros Hsep Hparts; induction Hparts as [|p ps Hp Hps IH]; [constructor|].
  destruct ps as [|q ps]; [exact Hp|].
  change (join sep (p :: q :: ps)) with (p ++ sep ++ join sep (q :: ps)).
  repeat apply is_ascii_app; auto.
Qed.

Lemma strings_json_is_ascii (items : list (str * str)) :
  is_ascii (strings_json items).
Proof.
  unfold strings_json.
  assert (Hnl : forall n, is_ascii (Json.newline_indent 2 n)).
  { intros n; unfold Json.newline_indent, is_ascii; constructor; [lia|].
    apply Forall_forall; intros c Hc; apply repeat_spec in Hc; subst; lia. }
  apply is_ascii_app; [apply is_ascii_check; reflexivity|].
  apply is_ascii_app; [apply Hnl|].
  apply is_ascii_app.
  - apply join_is_ascii.
    + apply is_ascii_app; [apply is_ascii_check; reflexivity|apply Hnl].
    + apply Forall_forall; intros t Ht; apply in_map_iff in Ht as (kv & <- & _).
      unfold string_item.
      apply is_ascii_app; [apply encode_basestring_ascii_is_ascii|].
      apply is_ascii_app;
        [apply is_ascii_check; reflexivity
        |apply encode_basestring_ascii_is_ascii].
  - apply is_ascii_app; [apply Hnl|apply is_ascii_check; reflexivity].
Qed.

End StringsFacts.

(** X24: a dictionary of strings that is not empty can always be
    serialized.  Its payload is the text of its items in the order of the
    dictionary, each a key and a value in quotes with every code point
    outside printable ASCII escaped, and the payload is ASCII, one octet a
    code point. *)
Theorem json_payload_of_strings (kv : str * str) (items : list (str * str)) :
  json_payload (tags_dict (kv :: items))
  = Ret (ascii_bytes (strings_json (kv :: items))) /\
  is_ascii (strings_json (kv :: items)).
Proof.
  split; [|apply strings_json_is_ascii].
  unfold json_payload, tags_dict; cbn [List.map].
  rewrite dumps_dict_in_order.
  change ((PyStr (fst kv), PyStr (snd kv))
          :: List.map (fun kv0 => (PyStr (fst kv0), PyStr (snd kv0))) items)
    with (List.map (fun kv0 => (PyStr (fst kv0), PyStr (snd kv0))) (kv :: items)).
  rewrite item_texts_of_strings; cbn [obind].
  apply (encode_ascii (strings_json_is_ascii (kv :: items))).
Qed.
